(** * onpointgalleries: the photo-gallery backend of [server.js]

    A shallow embedding of the Express handlers of [server.js] and of the
    two helpers [readDb] and [writeDb] they are built on.

    Modelling choices, all visible in the definitions below:
    - JavaScript numbers are doubles.  The numbers the program computes
      with (record ids, the result of [parseInt]) have no fraction, so they
      are kept as the integers they denote, and the two places where the
      program makes a new number round as doubles do: [+] gives the double
      nearest to the exact sum ([js_add]), and [parseInt] the double nearest
      to the numeral it reads, [Infinity] past the largest double
      ([to_double]).  Below [2 ^ 53] in magnitude nothing is rounded.
    - The disk is part of an explicit [World]: the state of [data/db.json],
      the names of the files in [data/uploads], and the lines written with
      [console.error].  Handlers are computations in a state-and-exception
      monad over [World]; [try]/[catch] is a combinator of that monad.
    - [data/db.json], when it parses, holds a document of the data model:
      two lists of records whose ids are integers.  The ids [JSON.parse]
      gives are doubles; the model admits any integer there.
    - [fs.writeFile] on [data/db.json] is taken to succeed; [fs.readFile]
      fails when the file is absent or unreadable, [fs.unlink] when the
      file to remove is not there.
    - Values that come from outside (multer's generated file names, the
      clock behind [new Date()]) are inputs of the request; the callback
      that generates the file names is modelled on its own, as
      [storage_filename], with the clock and the random number as
      arguments. *)

From Stdlib Require Import ZArith String Ascii List Bool Lia.
From Stdlib Require Import Decimal DecimalString DecimalPos.
From stdpp Require Import base tactics option list strings sorting.

Open Scope string_scope.
Open Scope list_scope.
Open Scope Z_scope.

(** ** JavaScript values *)

(** A number as the program meets it: an integer-valued double, [NaN],
    or one of the two infinities. *)
Inductive number : Type :=
| Num (z : Z)
| NaN
| Infinity (negative : bool).

(** A value read from JSON or from a request body.  [VUndefined] is the
    value of an absent property; [VObject] stands for any object or array,
    kept as its JSON text. *)
Inductive value : Type :=
| VUndefined
| VNull
| VBool (b : bool)
| VNum (z : Z)
| VStr (s : string)
| VObject (json : string).

(** ToBoolean, as used by [!x] and [if (x)]. *)
Definition truthy (v : value) : bool :=
  match v with
  | VUndefined | VNull => false
  | VBool b => b
  | VNum z => negb (z =? 0)
  | VStr s => negb (String.eqb s "")
  | VObject _ => true
  end.

(** The [!] operator. *)
Definition js_not (v : value) : value := VBool (negb (truthy v)).

(** [v === n] for a number [n]: true only for the same non-NaN number. *)
Definition strict_eq (v : value) (n : number) : bool :=
  match v, n with
  | VNum a, Num b => a =? b
  | _, _ => false
  end.

(** What [JSON.stringify] makes of a number: [NaN] and the infinities are
    written as [null]. *)
Definition JSON_number (n : number) : value :=
  match n with
  | Num z => VNum z
  | NaN | Infinity _ => VNull
  end.

(** ** Double arithmetic on integers *)

(** The integer nearest to [z] that a significand of 53 bits can hold, ties
    going to the even significand: round-to-nearest-even of IEEE 754, with
    no bound on the exponent.  Up to [2 ^ 53] in magnitude every integer
    is its own rounding; above, [e] is the number of low bits that are
    given up, [q] the significand that is left, and [r] what is cut off. *)
Definition round_to_double (z : Z) : Z :=
  let a := Z.abs z in
  if a <? 2 ^ 53 then z
  else
    let e := Z.log2 a - 52 in
    let q := a / 2 ^ e in
    let r := a mod 2 ^ e in
    let half := 2 ^ (e - 1) in
    let up := (half <? r) || ((r =? half) && Z.odd q) in
    Z.sgn z * ((if up then q + 1 else q) * 2 ^ e).

(** [Number.MAX_VALUE], the largest double. *)
Definition MAX_VALUE : Z := 2 ^ 1024 - 2 ^ 971.

(** The number that stands for the integer [z]: the nearest double, and an
    infinity when that is beyond the largest double. *)
Definition to_double (z : Z) : number :=
  let r := round_to_double z in
  if Z.abs r <=? MAX_VALUE then Num r else Infinity (z <? 0).

(** [a + b] for two integer-valued doubles: the double nearest to the exact
    sum.  The program adds a count to an id or to [0]; an id is a finite
    double, and adding [1] or an index to a finite double never reaches
    an infinity (the largest double plus such a count rounds back to
    itself), so the sum is a finite double again.  The last two cases are
    there to make the function total. *)
Definition js_add (a b : Z) : Z :=
  match to_double (a + b) with
  | Num r => r
  | Infinity negative => if negative then - MAX_VALUE else MAX_VALUE
  | NaN => 0
  end.

(** ** parseInt *)

Definition code (c : ascii) : Z := Z.of_nat (nat_of_ascii c).

(** White space skipped by [parseInt] (code units below 256). *)
Definition is_white (c : ascii) : bool :=
  let n := code c in
  ((9 <=? n) && (n <=? 13)) || (n =? 32) || (n =? 160).

Fixpoint trim_start (s : string) : string :=
  match s with
  | String c r => if is_white c then trim_start r else s
  | EmptyString => EmptyString
  end.

(** The value of [c] as a digit in [radix], if it is one. *)
Definition digit (radix : Z) (c : ascii) : option Z :=
  let n := code c in
  let d := if (48 <=? n) && (n <=? 57) then n - 48
           else if (97 <=? n) && (n <=? 122) then n - 87
           else if (65 <=? n) && (n <=? 90) then n - 55
           else radix in
  if d <? radix then Some d else None.

(** The longest prefix of digits, read in [radix]; [acc] is the value read
    so far, [None] while no digit has been seen. *)
Fixpoint parse_digits (radix : Z) (s : string) (acc : option Z) : option Z :=
  match s with
  | String c r =>
      match digit radix c with
      | Some d => parse_digits radix r (Some (radix * default 0 acc + d))
      | None => acc
      end
  | EmptyString => acc
  end.

Definition strip_sign (s : string) : Z * string :=
  match s with
  | String "-" r => (-1, r)
  | String "+" r => (1, r)
  | _ => (1, s)
  end.

Definition strip_prefix (s : string) : Z * string :=
  match s with
  | String "0" (String "x" r) => (16, r)
  | String "0" (String "X" r) => (16, r)
  | _ => (10, s)
  end.

(** [parseInt(s)] with no radix argument: the integer the digits denote,
    as the double nearest to it. *)
Definition parseInt (s : string) : number :=
  let '(sign, s1) := strip_sign (trim_start s) in
  let '(radix, s2) := strip_prefix s1 in
  match parse_digits radix s2 None with
  | Some m => to_double (sign * m)
  | None => NaN
  end.

(** The decimal numeral of an integer, as it appears in a path such as
    [/api/clients/12]. *)
Definition decimal (z : Z) : string := NilEmpty.string_of_int (Z.to_int z).

(** ** path.basename *)

Definition slash : ascii := "/"%char.

Fixpoint drop_slashes (cs : list ascii) : list ascii :=
  match cs with
  | c :: r => if Ascii.eqb c slash then drop_slashes r else cs
  | [] => []
  end.

Fixpoint until_slash (cs : list ascii) : list ascii :=
  match cs with
  | c :: r => if Ascii.eqb c slash then [] else c :: until_slash r
  | [] => []
  end.

(** POSIX [path.basename]: trailing slashes are ignored, the result is what
    follows the last remaining slash. *)
Definition basename (p : string) : string :=
  string_of_list_ascii
    (rev (until_slash (drop_slashes (rev (list_ascii_of_string p))))).

(** ** The data model of [db.json] *)

Module Client.
Record t : Type := mk {
  id : Z;
  name : value;
  email : value;
  phone : value
}.
End Client.

Module Photo.
Record t : Type := mk {
  id : Z;
  clientId : value;
  name : string;
  url : string;
  size : Z;
  uploaded : string;
  favorite : value
}.
End Photo.

Record Document : Type := mkDocument {
  clients : list Client.t;
  photos : list Photo.t
}.

(** ** Errors, the world, and the monad of handlers *)

Inductive error : Type :=
| SystemError (errno : string)
| SyntaxError
| TypeError.

(** [error.code]. *)
Definition error_code (e : error) : value :=
  match e with
  | SystemError c => VStr c
  | SyntaxError | TypeError => VUndefined
  end.

(** The text of [db.json] when it can be read: something [JSON.parse]
    rejects, or the serialisation of a document. *)
Inductive FileText : Type :=
| Garbage
| Json (d : Document).

Inductive FileState : Type :=
| Absent
| Unreadable (errno : string)
| Text (t : FileText).

Record World : Type := mkWorld {
  dbfile : FileState;
  uploads : list string;
  console : list (string * error)
}.

Inductive result (A : Type) : Type :=
| Ok (a : A)
| Throw (e : error).
Arguments Ok {A} a.
Arguments Throw {A} e.

Definition IO (A : Type) : Type := World -> result A * World.

Definition ret {A} (a : A) : IO A := fun w => (Ok a, w).

Definition throw {A} (e : error) : IO A := fun w => (Throw e, w).

Definition bind {A B} (m : IO A) (k : A -> IO B) : IO B :=
  fun w =>
    match m w with
    | (Ok a, w') => k a w'
    | (Throw e, w') => (Throw e, w')
    end.

Definition try_catch {A} (m : IO A) (handler : error -> IO A) : IO A :=
  fun w =>
    match m w with
    | (Ok a, w') => (Ok a, w')
    | (Throw e, w') => handler e w'
    end.

Notation "'let*' x ':=' m 'in' k" := (bind m (fun x => k))
  (at level 10, x name, m at level 100, k at level 200).
Notation "'do' m 'then' k" := (bind m (fun _ => k))
  (at level 10, m at level 100, k at level 200).

(** [for (const x of xs) { body }]. *)
Fixpoint for_of {A} (xs : list A) (body : A -> IO unit) : IO unit :=
  match xs with
  | [] => ret tt
  | x :: r => do body x then for_of r body
  end.

(** *** The file system *)

Definition fs_readFile_db : IO FileText :=
  fun w =>
    match dbfile w with
    | Absent => (Throw (SystemError "ENOENT"), w)
    | Unreadable c => (Throw (SystemError c), w)
    | Text t => (Ok t, w)
    end.

Definition fs_writeFile_db (t : FileText) : IO unit :=
  fun w => (Ok tt, mkWorld (Text t) (uploads w) (console w)).

Definition JSON_parse (t : FileText) : IO Document :=
  match t with
  | Garbage => throw SyntaxError
  | Json d => ret d
  end.

Definition JSON_stringify (d : Document) : FileText := Json d.

Definition has_file (file : string) (dir : list string) : bool :=
  existsb (String.eqb file) dir.

(** [fs.unlink] of [file] in the uploads directory. *)
Definition fs_unlink (file : string) : IO unit :=
  fun w =>
    if has_file file (uploads w)
    then (Ok tt,
          mkWorld (dbfile w)
                  (List.filter (fun f => negb (String.eqb file f)) (uploads w))
                  (console w))
    else (Throw (SystemError "ENOENT"), w).

Definition console_error (msg : string) (err : error) : IO unit :=
  fun w => (Ok tt, mkWorld (dbfile w) (uploads w) (console w ++ [(msg, err)])).

(** *** Helper functions of the server *)

Definition empty_db : Document := mkDocument [] [].

(** The [try] block of [readDb]. *)
Definition read_and_parse : IO Document :=
  let* data := fs_readFile_db in JSON_parse data.

Definition readDb : IO Document :=
  try_catch
    read_and_parse
    (fun error =>
       match error_code error with
       | VStr "ENOENT" => ret empty_db
       | _ => throw error
       end).

Definition writeDb (data : Document) : IO unit :=
  fs_writeFile_db (JSON_stringify data).

(** ** The routes *)

Inductive Body : Type :=
| JsonDocument (db : Document)
| JsonClient (c : Client.t)
| JsonPhoto (p : Photo.t)
| JsonPhotos (ps : list Photo.t)
| JsonMessage (message : string)
| JsonError (message : string) (error : error).

Record Response : Type := mkResponse {
  status : Z;
  body : Body
}.

(** [try { ... } catch (error) { res.status(500).json({ message, error }) }],
    the frame of every handler. *)
Definition or_500 (message : string) (handler : IO Response)
  : World -> Response * World :=
  fun w =>
    match handler w with
    | (Ok r, w') => (r, w')
    | (Throw e, w') => (mkResponse 500 (JsonError message e), w')
    end.

(** [Math.max(...xs)] for a list of integers.  On the empty list JavaScript
    gives [-Infinity]; both call sites test [length > 0] first, and the
    model gives [0] there. *)
Definition Math_max (xs : list Z) : Z :=
  match xs with
  | [] => 0
  | x :: r => fold_left Z.max r x
  end.

(** [xs.findIndex(f)], [None] for [-1]. *)
Fixpoint findIndex {A} (f : A -> bool) (xs : list A) : option nat :=
  match xs with
  | [] => None
  | x :: r => if f x then Some O else S <$> findIndex f r
  end.

(** [xs.find(f)], [None] for [undefined].  The object found is returned
    with its position in [xs]: [find] hands out the array's own object, and
    the position says which one is changed when it is assigned to. *)
Fixpoint find {A} (f : A -> bool) (xs : list A) : option (nat * A) :=
  match xs with
  | [] => None
  | x :: r => if f x then Some (O, x) else prod_map S id <$> find f r
  end.

(** GET /api/data *)
Definition get_api_data : World -> Response * World :=
  or_500 "Error reading data"
    (let* db := readDb in
     ret (mkResponse 200 (JsonDocument db))).

(** [newId] of POST /api/clients. *)
Definition newId (db : Document) : Z :=
  if (0 <? length (clients db))%nat
  then js_add (Math_max (map Client.id (clients db))) 1
  else 1.

(** POST /api/clients; the arguments are the three properties read from
    [req.body]. *)
Definition post_api_clients (name email phone : value)
  : World -> Response * World :=
  or_500 "Error creating client"
    (if negb (truthy name)
     then ret (mkResponse 400 (JsonMessage "Client name is required"))
     else
       let* db := readDb in
       let newClient := Client.mk (newId db) name email phone in
       let db := mkDocument (clients db ++ [newClient]) (photos db) in
       do writeDb db then
       ret (mkResponse 201 (JsonClient newClient))).

(** The body of the loop that removes the files of deleted photos, shared
    by the two delete routes. *)
Definition unlink_photo (photo : Photo.t) : IO unit :=
  try_catch
    (fs_unlink (basename (Photo.url photo)))
    (fun err =>
       console_error ("Failed to delete photo file: " ++ Photo.url photo) err).

(** DELETE /api/clients/:id *)
Definition delete_api_clients (id : string) : World -> Response * World :=
  or_500 "Error deleting client"
    (let clientId := parseInt id in
     let* db := readDb in
     match findIndex (fun c => strict_eq (VNum (Client.id c)) clientId)
                     (clients db) with
     | None => ret (mkResponse 404 (JsonMessage "Client not found"))
     | Some clientIndex =>
         let db := mkDocument (delete clientIndex (clients db)) (photos db) in
         let photosToDelete :=
           List.filter (fun p => strict_eq (Photo.clientId p) clientId)
                       (photos db) in
         do for_of photosToDelete unlink_photo then
         let db :=
           mkDocument (clients db)
             (List.filter
                (fun p => negb (strict_eq (Photo.clientId p) clientId))
                (photos db)) in
         do writeDb db then
         ret (mkResponse 200
                (JsonMessage "Client and associated photos deleted"))
     end).

(** One entry of [req.files], as multer's disk storage fills it in. *)
Record UploadedFile : Type := mkFile {
  originalname : string;
  filename : string;
  file_size : Z
}.

(** A text field of a multipart form as a value: absent or a string. *)
Definition field (f : option string) : value :=
  match f with
  | Some s => VStr s
  | None => VUndefined
  end.

(** ToString of such a field, as [parseInt] applies it. *)
Definition ToString (f : option string) : string :=
  match f with
  | Some s => s
  | None => "undefined"
  end.

(** [upload.array('photos')]: the disk storage has written every file of
    the request into the uploads directory before the handler runs. *)
Definition upload_array (files : option (list UploadedFile)) : IO unit :=
  fun w =>
    (Ok tt,
     mkWorld (dbfile w)
             (uploads w ++ map filename (default [] files))
             (console w)).

(** [maxId] of POST /api/photos. *)
Definition maxId (db : Document) : Z :=
  if (0 <? length (photos db))%nat
  then Math_max (map Photo.id (photos db))
  else 0.

(** [newPhotos] of POST /api/photos: one record per file, in the order of
    [req.files].  [JSON.stringify] writes the number [parseInt] returns into
    the file and into the response, so the record carries its JSON form. *)
Definition newPhotos (maxId : Z) (clientId : option string)
    (files : list UploadedFile) (now : nat -> string) : list Photo.t :=
  imap (fun i file =>
          Photo.mk (js_add (js_add maxId (Z.of_nat i)) 1)
                   (JSON_number (parseInt (ToString clientId)))
                   (originalname file)
                   ("/uploads/" ++ filename file)
                   (file_size file)
                   (now i)
                   (VBool false))
       files.

(** The handler of POST /api/photos; [clientId] is [req.body.clientId],
    [files] is [req.files] ([None] for undefined), and [now i] is what
    [new Date().toISOString()] gives when the [i]-th record is built. *)
Definition post_api_photos_handler (clientId : option string)
    (files : option (list UploadedFile)) (now : nat -> string)
  : World -> Response * World :=
  or_500 "Error uploading photos"
    (if negb (truthy (field clientId))
        || match files with None => true | Some fs => (length fs =? 0)%nat end
     then ret (mkResponse 400 (JsonMessage "Client ID and files are required"))
     else
       let* db := readDb in
       let newPhotos :=
         newPhotos (maxId db) clientId (default [] files) now in
       let db := mkDocument (clients db) (photos db ++ newPhotos) in
       do writeDb db then
       ret (mkResponse 201 (JsonPhotos newPhotos))).

(** POST /api/photos: multer's middleware, then the handler. *)
Definition post_api_photos (clientId : option string)
    (files : option (list UploadedFile)) (now : nat -> string)
  : World -> Response * World :=
  fun w => post_api_photos_handler clientId files now (upload_array files w).2.

(** DELETE /api/photos/:id *)
Definition delete_api_photos (id : string) : World -> Response * World :=
  or_500 "Error deleting photo"
    (let photoId := parseInt id in
     let* db := readDb in
     match findIndex (fun p => strict_eq (VNum (Photo.id p)) photoId)
                     (photos db) with
     | None => ret (mkResponse 404 (JsonMessage "Photo not found"))
     | Some photoIndex =>
         match photos db !! photoIndex with
         | None => throw TypeError
         | Some photo =>
             let db :=
               mkDocument (clients db) (delete photoIndex (photos db)) in
             do unlink_photo photo then
             do writeDb db then
             ret (mkResponse 200 (JsonMessage "Photo deleted"))
         end
     end).

(** [photo.favorite = !photo.favorite] on the object that sits at
    [photoIndex] of [db.photos]. *)
Definition flip_favorite (photo : Photo.t) : Photo.t :=
  Photo.mk (Photo.id photo) (Photo.clientId photo) (Photo.name photo)
           (Photo.url photo) (Photo.size photo) (Photo.uploaded photo)
           (js_not (Photo.favorite photo)).

(** PUT /api/photos/:id/favorite.  [find] returns the first matching
    object of [db.photos] itself, so the assignment changes the array
    element in place; the model updates the element at its index. *)
Definition put_api_photos_favorite (id : string) : World -> Response * World :=
  or_500 "Error updating photo"
    (let photoId := parseInt id in
     let* db := readDb in
     match find (fun p => strict_eq (VNum (Photo.id p)) photoId)
                (photos db) with
     | None => ret (mkResponse 404 (JsonMessage "Photo not found"))
     | Some (photoIndex, photo) =>
         let photo := flip_favorite photo in
         let db :=
           mkDocument (clients db) (<[photoIndex := photo]> (photos db)) in
         do writeDb db then
         ret (mkResponse 200 (JsonPhoto photo))
     end).

(** ** Requests and their sequential execution *)

Inductive Request : Type :=
| GetData
| PostClients (name email phone : value)
| DeleteClients (id : string)
| PostPhotos (clientId : option string) (files : option (list UploadedFile))
             (now : nat -> string)
| DeletePhotos (id : string)
| PutFavorite (id : string).

Definition handle (r : Request) : World -> Response * World :=
  match r with
  | GetData => get_api_data
  | PostClients name email phone => post_api_clients name email phone
  | DeleteClients id => delete_api_clients id
  | PostPhotos clientId files now => post_api_photos clientId files now
  | DeletePhotos id => delete_api_photos id
  | PutFavorite id => put_api_photos_favorite id
  end.

(** Requests served one after the other, none overlapping another. *)
Fixpoint serve (rs : list Request) (w : World) : list Response * World :=
  match rs with
  | [] => ([], w)
  | r :: rest =>
      let '(resp, w1) := handle r w in
      let '(resps, w2) := serve rest w1 in
      (resp :: resps, w2)
  end.

(** ** The file names of multer's disk storage *)

Definition dot : ascii := "."%char.

Fixpoint until_dot (cs : list ascii) : list ascii :=
  match cs with
  | c :: r => if Ascii.eqb c dot then [] else c :: until_dot r
  | [] => []
  end.

Fixpoint after_dot (cs : list ascii) : option (list ascii) :=
  match cs with
  | c :: r => if Ascii.eqb c dot then Some r else after_dot r
  | [] => None
  end.

(** POSIX [path.extname].  Only the last component of the path counts,
    trailing slashes ignored.  The extension runs from the last dot of that
    component to its end; it is empty when there is no dot, when the last
    dot is the first character of the component, and when the component is
    [..].  The component is handled reversed, as the loop of [extname]
    walks it. *)
Definition extname (p : string) : string :=
  let component :=
    until_slash (drop_slashes (rev (list_ascii_of_string p))) in
  match after_dot component with
  | None => ""
  | Some [] => ""
  | Some (c :: before) =>
      match before, until_dot component with
      | [], [] => if Ascii.eqb c dot then ""
                  else string_of_list_ascii [dot]
      | _, ext => string_of_list_ascii (dot :: rev ext)
      end
  end.

(** The [filename] callback of the disk storage.  [now] is [Date.now()]
    and [random] is [Math.round(Math.random() * 1E9)], both integers. *)
Definition storage_filename (fieldname : string) (now random : Z)
    (originalname : string) : string :=
  let uniqueSuffix := (decimal now ++ "-" ++ decimal random)%string in
  (fieldname ++ "-" ++ uniqueSuffix ++ extname originalname)%string.

(** ** Vocabulary of the properties *)

Global Instance value_eq_dec : EqDecision value.
Proof. solve_decision. Defined.

(** [readFile] reports ENOENT: there is no file at [dbPath]. *)
Definition file_absent (w : World) : Prop :=
  dbfile w = Absent \/ dbfile w = Unreadable "ENOENT".

(** [load()] gives the document [d] in the world [w]. *)
Definition holds (w : World) (d : Document) : Prop := (readDb w).1 = Ok d.

(** The tests of the routes that look a record up by the id of the path. *)
Definition is_client (id : string) (c : Client.t) : bool :=
  strict_eq (VNum (Client.id c)) (parseInt id).

Definition is_photo (id : string) (p : Photo.t) : bool :=
  strict_eq (VNum (Photo.id p)) (parseInt id).

(** What multer leaves behind before the handler of POST /api/photos. *)
Definition after_multer (w : World) (files : option (list UploadedFile))
  : World :=
  mkWorld (dbfile w)
          (uploads w ++ map filename (default [] files))
          (console w).

(** A request to create a client, from the three properties of its body. *)
Definition create (b : value * value * value) : Request :=
  PostClients b.1.1 b.1.2 b.2.

(** A world with no [db.json], an empty uploads directory and nothing
    logged. *)
Definition fresh : World := mkWorld Absent [] [].

(** The request is turned down before anything is changed: a validation
    error (creating a client with the name missing, uploading with the
    clientId missing or with no file) or a record that is not found (a
    delete or a toggle whose id no record of the loaded document has). *)
Definition rejected (r : Request) (w : World) : Prop :=
  match r with
  | GetData => False
  | PostClients name _ _ => truthy name = false
  | PostPhotos clientId files _ =>
      truthy (field clientId) = false \/ default [] files = []
  | DeleteClients id =>
      exists d, holds w d /\
                forall c, c ∈ clients d -> parseInt id <> Num (Client.id c)
  | DeletePhotos id | PutFavorite id =>
      exists d, holds w d /\
                forall p, p ∈ photos d -> parseInt id <> Num (Photo.id p)
  end.

(** The status that goes with each of these refusals. *)
Definition refusal (r : Request) : Z :=
  match r with
  | PostClients _ _ _ | PostPhotos _ _ _ => 400
  | _ => 404
  end.

(** The world after a refused request: as before, but for the files that
    multer has already stored when an upload is refused. *)
Definition refused_world (r : Request) (w : World) : World :=
  match r with
  | PostPhotos _ files _ => after_multer w files
  | _ => w
  end.

(** Ids are pairwise distinct among clients and among photos. *)
Definition unique_ids (d : Document) : Prop :=
  NoDup (map Client.id (clients d)) /\ NoDup (map Photo.id (photos d)).

(** Whatever document the store gives has distinct ids. *)
Definition store_unique (w : World) : Prop :=
  forall d, holds w d -> unique_ids d.

(** The changes the routes make to the document they have loaded, one
    constructor per route that writes, with the number of records the
    change adds. *)
Inductive mutation (d : Document) : Z -> Document -> Prop :=
| client_created (name email phone : value) :
    mutation d 1
      (mkDocument (clients d ++ [Client.mk (newId d) name email phone])
                  (photos d))
| client_deleted (i : nat) (n : number) :
    mutation d 0
      (mkDocument (delete i (clients d))
                  (List.filter
                     (fun p => negb (strict_eq (Photo.clientId p) n))
                     (photos d)))
| photos_uploaded (clientId : option string) (fs : list UploadedFile)
                  (now : nat -> string) :
    mutation d (Z.of_nat (length fs))
      (mkDocument (clients d)
                  (photos d ++ newPhotos (maxId d) clientId fs now))
| photo_deleted (i : nat) :
    mutation d 0 (mkDocument (clients d) (delete i (photos d)))
| favorite_toggled (j : nat) (Q : Photo.t) :
    photos d !! j = Some Q ->
    mutation d 0
      (mkDocument (clients d) (<[j := flip_favorite Q]> (photos d))).

(** Every id of the document lies between [- 2 ^ 53] and [b]: in the range
    where doubles count without a gap when [b] is at most [2 ^ 53]. *)
Definition ids_within (b : Z) (d : Document) : Prop :=
  0 <= b /\
  (forall c, c ∈ clients d -> - 2 ^ 53 <= Client.id c <= b) /\
  (forall p, p ∈ photos d -> - 2 ^ 53 <= Photo.id p <= b).

Definition store_within (b : Z) (w : World) : Prop :=
  forall d, holds w d -> ids_within b d.

(** The number of records a request asks to add: one for a client, one
    per file for an upload. *)
Definition demand (r : Request) : Z :=
  match r with
  | PostClients _ _ _ => 1
  | PostPhotos _ files _ => Z.of_nat (length (default [] files))
  | _ => 0
  end.

Definition budget (rs : list Request) : Z :=
  foldr (fun r n => demand r + n) 0 rs.

(** A store whose only client and only photo have the id [2 ^ 53], the
    first integer whose successor is not a double. *)
Definition zoe : Client.t :=
  Client.mk 9007199254740992 (VStr "Zoe") VUndefined VUndefined.

Definition zenith : Photo.t :=
  Photo.mk 9007199254740992 (VNum 9007199254740992) "z.jpg"
           "/uploads/photos-0.jpg" 10 "t0" (VBool false).

Definition brim_db : Document := mkDocument [zoe] [zenith].

Definition brim : World := mkWorld (Text (Json brim_db)) [] [].

(** A store in which two clients have the same id, and one in which two
    photos have. *)
Definition twin1 : Client.t := Client.mk 1 (VStr "Ann") VUndefined VUndefined.
Definition twin2 : Client.t := Client.mk 1 (VStr "Ben") VUndefined VUndefined.

Definition twins_db : Document := mkDocument [twin1; twin2] [].

Definition twins : World := mkWorld (Text (Json twins_db)) [] [].

Definition copy1 : Photo.t :=
  Photo.mk 5 (VNum 1) "a.jpg" "/uploads/photos-1.jpg" 10 "t1" (VBool false).
Definition copy2 : Photo.t :=
  Photo.mk 5 (VNum 1) "b.jpg" "/uploads/photos-2.jpg" 20 "t2" (VBool false).

Definition copies_db : Document := mkDocument [twin1] [copy1; copy2].

Definition copies : World := mkWorld (Text (Json copies_db)) [] [].

(** The value [v] is the clientId that was given as the text [s]: that
    text itself, or the integer it is read as. *)
Definition given_clientId (s : string) (v : value) : Prop :=
  v = VStr s \/ exists z, parseInt s = Num z /\ v = VNum z.

(** A small store used to run the routes on: two clients, three photos,
    and an uploads directory from which the file of the third photo is
    already gone. *)
Definition alice : Client.t := Client.mk 1 (VStr "Alice") VUndefined VUndefined.
Definition bob : Client.t := Client.mk 2 (VStr "Bob") VNull (VStr "0700").

Definition photo1 : Photo.t :=
  Photo.mk 1 (VNum 1) "a.jpg" "/uploads/photos-1.jpg" 10 "t1" (VBool false).
Definition photo2 : Photo.t :=
  Photo.mk 2 (VNum 2) "b.jpg" "/uploads/photos-2.jpg" 20 "t1" (VBool true).
Definition photo3 : Photo.t :=
  Photo.mk 3 (VNum 1) "c.jpg" "/uploads/photos-3.jpg" 30 "t2" (VBool false).

Definition gallery_db : Document :=
  mkDocument [alice; bob] [photo1; photo2; photo3].

Definition gallery : World :=
  mkWorld (Text (Json gallery_db)) ["photos-1.jpg"; "photos-2.jpg"] [].

Definition file1 : UploadedFile := mkFile "dawn.jpg" "photos-7.jpg" 1000.
Definition file2 : UploadedFile := mkFile "dusk.jpg" "photos-8.jpg" 2000.
Definition file3 : UploadedFile := mkFile "noon.jpg" "photos-9.jpg" 3000.

(** A clock that stands still. *)
Definition noon (i : nat) : string := "2024-01-01T12:00:00.000Z".

(** The path or name [s] has no slash in it. *)
Definition slash_free (s : string) : Prop :=
  slash ∉ list_ascii_of_string s.

(** [load()] succeeds in the world [w]. *)
Definition loadable (w : World) : Prop := exists d, holds w d.

(** The status of each route when it goes through. *)
Definition success (r : Request) : Z :=
  match r with
  | PostClients _ _ _ | PostPhotos _ _ _ => 201
  | _ => 200
  end.

(** The message each route sends with a 500. *)
Definition failure_message (r : Request) : string :=
  match r with
  | GetData => "Error reading data"
  | PostClients _ _ _ => "Error creating client"
  | DeleteClients _ => "Error deleting client"
  | PostPhotos _ _ _ => "Error uploading photos"
  | DeletePhotos _ => "Error deleting photo"
  | PutFavorite _ => "Error updating photo"
  end.

(** The directory [dir] without the files called any of [names]. *)
Definition without (names dir : list string) : list string :=
  List.filter (fun f => negb (has_file f names)) dir.

(** The names of the files the delete routes try to remove for [ps]. *)
Definition blobs (ps : list Photo.t) : list string :=
  map (fun p => basename (Photo.url p)) ps.

(** Ids grow along the lists of the document. *)
Definition sorted_ids (d : Document) : Prop :=
  StronglySorted Z.lt (map Client.id (clients d)) /\
  StronglySorted Z.lt (map Photo.id (photos d)).

Definition store_sorted (w : World) : Prop :=
  forall d, holds w d -> sorted_ids d.

(** Every photo belongs to a client of the document. *)
Definition integral (d : Document) : Prop :=
  forall p, p ∈ photos d ->
            exists c, c ∈ clients d /\ Photo.clientId p = VNum (Client.id c).

Definition store_integral (w : World) : Prop :=
  forall d, holds w d -> integral d.

(** An upload names a client of the loaded document; any other request
    passes. *)
Definition names_client (r : Request) (w : World) : Prop :=
  match r with
  | PostPhotos clientId _ _ =>
      forall d, holds w d ->
                exists c, c ∈ clients d /\
                          parseInt (ToString clientId) = Num (Client.id c)
  | _ => True
  end.

(** The photo [p] with its favorite flag turned into the boolean that
    [!!p.favorite] is. *)
Definition as_boolean (p : Photo.t) : Photo.t :=
  Photo.mk (Photo.id p) (Photo.clientId p) (Photo.name p) (Photo.url p)
           (Photo.size p) (Photo.uploaded p)
           (VBool (truthy (Photo.favorite p))).

(** * Properties *)

(** ** Rounding to doubles *)

Section Doubles.

(** Up to [2 ^ 53] in magnitude every integer is a double. *)
Lemma round_to_double_small (z : Z) :
  Z.abs z <= 2 ^ 53 -> round_to_double z = z.
Proof.
  intros H. unfold round_to_double.
  destruct (Z.ltb_spec (Z.abs z) (2 ^ 53)) as [|Hge]; [done|].
  assert (z = 2 ^ 53 \/ z = - 2 ^ 53) as [->| ->] by lia; by vm_compute.
Qed.

Lemma MAX_VALUE_large : 2 ^ 53 < MAX_VALUE.
Proof. by vm_compute. Qed.

Lemma to_double_small (z : Z) : Z.abs z <= 2 ^ 53 -> to_double z = Num z.
Proof.
  intros H. unfold to_double. rewrite round_to_double_small by done.
  pose proof MAX_VALUE_large.
  destruct (Z.leb_spec (Z.abs z) MAX_VALUE); [done|lia].
Qed.

Lemma js_add_small (a b : Z) : Z.abs (a + b) <= 2 ^ 53 -> js_add a b = a + b.
Proof. intros H. unfold js_add. by rewrite to_double_small. Qed.

(** A number of magnitude [q * 2 ^ e] with a significand of 53 bits is
    its own rounding. *)
Lemma round_to_double_exact (q e : Z) :
  0 <= e -> 2 ^ 52 <= q < 2 ^ 53 ->
  round_to_double (q * 2 ^ e) = q * 2 ^ e /\
  round_to_double (- (q * 2 ^ e)) = - (q * 2 ^ e).
Proof.
  intros He Hq.
  assert (0 < 2 ^ e) as Hpe by (apply Z.pow_pos_nonneg; lia).
  assert (0 < 2 ^ 52) as H52 by done.
  assert (0 < q * 2 ^ e) as Hpos by nia.
  assert (Z.log2 (q * 2 ^ e) = 52 + e) as Hlog.
  { apply Z.log2_unique; [lia|].
    rewrite Z.pow_succ_r, !Z.pow_add_r by lia.
    change (2 ^ 53) with (2 * 2 ^ 52) in Hq.
    split; [apply Z.mul_le_mono_nonneg_r; lia|].
    rewrite Z.mul_assoc. apply Z.mul_lt_mono_pos_r; lia. }
  unfold round_to_double.
  rewrite Z.abs_opp, (Z.abs_eq (q * 2 ^ e)) by lia.
  destruct (Z.ltb_spec (q * 2 ^ e) (2 ^ 53)) as [|Hge]; [done|].
  rewrite Hlog. replace (52 + e - 52) with e by lia.
  assert (e <> 0) as He0.
  { intros ->. change (2 ^ 0) with 1 in Hge. lia. }
  rewrite Z.div_mul, Z.mod_mul by lia.
  assert (0 < 2 ^ (e - 1)) as Hh by (apply Z.pow_pos_nonneg; lia).
  destruct (Z.ltb_spec (2 ^ (e - 1)) 0); [lia|].
  destruct (Z.eqb_spec 0 (2 ^ (e - 1))); [lia|]. simpl orb. cbv iota.
  rewrite Z.sgn_pos by lia. rewrite Z.sgn_neg by lia. lia.
Qed.

Lemma round_to_double_idem (z : Z) :
  round_to_double (round_to_double z) = round_to_double z.
Proof.
  unfold round_to_double at 2 3.
  destruct (Z.ltb_spec (Z.abs z) (2 ^ 53)) as [Hlt|Hge].
  { apply round_to_double_small. lia. }
  set (a := Z.abs z) in *. set (e := Z.log2 a - 52).
  assert (0 < a) as Ha by (pose proof (Z.pow_pos_nonneg 2 53); lia).
  destruct (Z.log2_spec a Ha) as [Hlo Hhi].
  assert (53 <= Z.log2 a) as Hl.
  { apply Z.log2_le_pow2; lia. }
  assert (1 <= e) as He by (unfold e; lia).
  assert (0 < 2 ^ e) as Hpe by (apply Z.pow_pos_nonneg; lia).
  assert (2 ^ Z.log2 a = 2 ^ 52 * 2 ^ e) as E1.
  { rewrite <- Z.pow_add_r by lia. f_equal. unfold e. lia. }
  assert (2 ^ Z.succ (Z.log2 a) = 2 ^ 53 * 2 ^ e) as E2.
  { rewrite <- Z.pow_add_r by lia. f_equal. unfold e. lia. }
  rewrite E1 in Hlo. rewrite E2 in Hhi.
  assert (2 ^ 52 <= a / 2 ^ e < 2 ^ 53) as Hq.
  { split.
    - apply Z.div_le_lower_bound; lia.
    - apply Z.div_lt_upper_bound; lia. }
  set (q := a / 2 ^ e) in *.
  set (up := _ || _).
  set (q' := if up then q + 1 else q).
  assert (2 ^ 52 <= q' <= 2 ^ 53) as Hq' by (unfold q'; destruct up; lia).
  assert (forall s, s = 1 \/ s = -1 ->
            round_to_double (s * (q' * 2 ^ e)) = s * (q' * 2 ^ e)) as Hs.
  { intros s Hs.
    destruct (Z.eq_dec q' (2 ^ 53)) as [Eq|Nq].
    - assert (q' * 2 ^ e = 2 ^ 52 * 2 ^ (e + 1)) as ->.
      { rewrite Eq, Z.pow_add_r by lia. change (2 ^ 1) with 2.
        change (2 ^ 53) with (2 ^ 52 * 2). lia. }
      destruct (round_to_double_exact (2 ^ 52) (e + 1)) as [R1 R2];
        [lia|done|].
      destruct Hs as [-> | ->].
      + by rewrite !Z.mul_1_l.
      + replace (-1 * (2 ^ 52 * 2 ^ (e + 1)))
          with (- (2 ^ 52 * 2 ^ (e + 1))) by lia. done.
    - destruct (round_to_double_exact q' e) as [R1 R2]; [lia|lia|].
      destruct Hs as [-> | ->].
      + by rewrite !Z.mul_1_l.
      + replace (-1 * (q' * 2 ^ e)) with (- (q' * 2 ^ e)) by lia. done. }
  apply Hs. unfold a in Ha. destruct z; simpl; [done|auto..].
Qed.

Lemma to_double_Num (z r : Z) : to_double z = Num r -> to_double r = Num r.
Proof.
  unfold to_double.
  destruct (Z.leb_spec (Z.abs (round_to_double z)) MAX_VALUE) as [H|]; [|done].
  intros [= <-]. rewrite round_to_double_idem.
  by destruct (Z.leb_spec (Z.abs (round_to_double z)) MAX_VALUE); [|lia].
Qed.

Lemma to_double_js_add (a b : Z) : to_double (js_add a b) = Num (js_add a b).
Proof.
  unfold js_add. destruct (to_double (a + b)) as [r| |[|]] eqn:E.
  - by apply to_double_Num in E.
  - done.
  - by vm_compute.
  - by vm_compute.
Qed.

End Doubles.

(** ** parseInt reads decimal numerals back *)

Section Numerals.

Lemma parse_digits_acc (d : uint) (acc : positive) :
  parse_digits 10 (NilEmpty.string_of_uint d) (Some (Zpos acc)) =
  Some (Zpos (Pos.of_uint_acc d acc)).
Proof.
  revert acc. induction d; intros acc; simpl; [done|..];
    match goal with
    | |- parse_digits 10 ?s (Some ?a) = Some (Z.pos (Pos.of_uint_acc _ ?b)) =>
        replace a with (Z.pos b) by (vm_compute (code _); lia); apply IHd
    end.
Qed.

Lemma parse_digits_uint (d : uint) (acc : option Z) :
  default 0 acc = 0 ->
  d <> Nil \/ acc = Some 0 ->
  parse_digits 10 (NilEmpty.string_of_uint d) acc =
  Some (Z.of_N (Pos.of_uint d)).
Proof.
  revert acc. induction d; intros acc Hacc Hd; simpl; rewrite ?Hacc;
    try (vm_compute (code _); vm_compute (10 * 0 + _);
         match goal with
         | |- parse_digits 10 _ (Some (Z.pos ?k)) = _ =>
             apply (parse_digits_acc d k)
         end).
  - by destruct Hd.
  - apply IHd; auto.
Qed.

(** The numeral of a natural number starts with a digit: no white space,
    no sign and no [0x] are taken off it. *)
Lemma strip_numeral (d : uint) :
  trim_start (NilEmpty.string_of_uint d) = NilEmpty.string_of_uint d /\
  strip_sign (NilEmpty.string_of_uint d) = (1, NilEmpty.string_of_uint d) /\
  strip_prefix (NilEmpty.string_of_uint d) =
  (10, NilEmpty.string_of_uint d).
Proof.
  destruct d; simpl; try done. by destruct d.
Qed.

Lemma parseInt_uint (d : uint) :
  d <> Nil ->
  parseInt (NilEmpty.string_of_uint d) =
  to_double (Z.of_N (Pos.of_uint d)) /\
  parseInt (String "-" (NilEmpty.string_of_uint d)) =
  to_double (- Z.of_N (Pos.of_uint d)).
Proof.
  intros Hd. destruct (strip_numeral d) as (H1 & H2 & H3).
  unfold parseInt. simpl trim_start. rewrite H1. simpl strip_sign.
  rewrite H2, H3, (parse_digits_uint d None); auto.
  split; f_equal; lia.
Qed.

(** The numeral of [z] is read as the double nearest to [z]. *)
Lemma parseInt_to_double (z : Z) : parseInt (decimal z) = to_double z.
Proof.
  destruct z as [|p|p]; [done|..]; unfold decimal; simpl.
  - rewrite (proj1 (parseInt_uint _ (Unsigned.to_uint_nonnil p))).
    by rewrite Unsigned.of_to.
  - rewrite (proj2 (parseInt_uint _ (Unsigned.to_uint_nonnil p))).
    by rewrite Unsigned.of_to.
Qed.

(** The numeral of a double is read as that double. *)
Lemma parseInt_double (z : Z) :
  to_double z = Num z -> parseInt (decimal z) = Num z.
Proof. intros H. by rewrite parseInt_to_double. Qed.

Lemma parseInt_decimal (z : Z) :
  Z.abs z <= 2 ^ 53 -> parseInt (decimal z) = Num z.
Proof. intros H. by rewrite parseInt_to_double, to_double_small. Qed.

End Numerals.

(** ** The helpers *)

Section Helpers.

Lemma strict_eq_true (v : value) (z : Z) :
  strict_eq v (Num z) = true <-> v = VNum z.
Proof.
  destruct v; simpl; try (split; [discriminate | congruence]).
  rewrite Z.eqb_eq. split; congruence.
Qed.

Lemma strict_eq_NaN (v : value) : strict_eq v NaN = false.
Proof. by destruct v. Qed.

Lemma strict_eq_id (a : Z) (n : number) :
  strict_eq (VNum a) n = true <-> n = Num a.
Proof.
  destruct n as [b| |b]; simpl; [|split; congruence..].
  rewrite Z.eqb_eq. split; congruence.
Qed.

(** [Math.max] of a non-empty list is one of its elements and bounds
    them all. *)
Lemma fold_max_elem (r : list Z) (x : Z) :
  fold_left Z.max r x = x \/ In (fold_left Z.max r x) r.
Proof.
  revert x. induction r as [|y r IH]; intros x; simpl; [by left|].
  destruct (IH (Z.max x y)) as [E|E]; [|by right; right].
  rewrite E. destruct (Z.max_spec x y) as [[_ ->]|[_ ->]]; auto.
Qed.

Lemma fold_max_bound (r : list Z) (x : Z) :
  x <= fold_left Z.max r x /\ forall y, In y r -> y <= fold_left Z.max r x.
Proof.
  revert x. induction r as [|y r IH]; intros x; simpl; [split; [lia|tauto]|].
  destruct (IH (Z.max x y)) as [H1 H2]. split; [lia|].
  intros z [<-|Hz]; [lia|auto].
Qed.

Lemma Math_max_elem (xs : list Z) : xs <> [] -> In (Math_max xs) xs.
Proof.
  destruct xs as [|x r]; [done|]. intros _. simpl.
  destruct (fold_max_elem r x) as [->|H]; auto.
Qed.

Lemma Math_max_bound (xs : list Z) (y : Z) : In y xs -> y <= Math_max xs.
Proof.
  destruct xs as [|x r]; [done|]. simpl.
  destruct (fold_max_bound r x) as [H1 H2]. intros [<-|H]; auto.
Qed.

Lemma Math_max_snoc (xs : list Z) (y : Z) :
  xs <> [] -> Math_max (xs ++ [y]) = Z.max (Math_max xs) y.
Proof.
  destruct xs as [|x r]; [done|]. intros _. simpl.
  by rewrite fold_left_app.
Qed.

Lemma length_pos_nonempty {A} (xs : list A) :
  (0 <? length xs)%nat = true <-> xs <> [].
Proof. destruct xs; simpl; split; (done || lia || congruence). Qed.

(** [findIndex] gives the first position where the test holds. *)
Lemma findIndex_Some {A} (f : A -> bool) (xs : list A) (i : nat) :
  findIndex f xs = Some i <->
  exists l1 x l2,
    xs = l1 ++ x :: l2 /\ length l1 = i /\ f x = true /\
    Forall (fun y => f y = false) l1.
Proof.
  revert i. induction xs as [|x r IH]; intros i; simpl.
  - split; [done|]. intros (l1 & y & l2 & E & _). by destruct l1.
  - destruct (f x) eqn:Hx.
    + split.
      * intros [= <-]. exists [], x, r. auto.
      * intros (l1 & y & l2 & E & Hl & Hy & Hall).
        destruct l1 as [|z l1]; [by subst|].
        simplify_eq/=. apply Forall_cons in Hall as [Hz _]. congruence.
    + destruct (findIndex f r) as [j|] eqn:Hr; simpl.
      * split.
        -- intros [= <-]. destruct (proj1 (IH j) eq_refl)
             as (l1 & y & l2 & -> & Hl & Hy & Hall).
           exists (x :: l1), y, l2. simpl. repeat split; auto.
        -- intros (l1 & y & l2 & E & Hl & Hy & Hall).
           destruct l1 as [|z l1]; simplify_eq/=; [congruence|].
           apply Forall_cons in Hall as [_ Hall]. f_equal.
           assert (Some j = Some (length l1)) as [= ->]; [|done].
           apply IH. eauto 10.
      * split; [done|].
        intros (l1 & y & l2 & E & Hl & Hy & Hall).
        destruct l1 as [|z l1]; simplify_eq/=; [congruence|].
        apply Forall_cons in Hall as [_ Hall].
        assert (None = Some (length l1)) as [=]. apply IH. eauto 10.
Qed.

Lemma findIndex_None {A} (f : A -> bool) (xs : list A) :
  findIndex f xs = None <-> Forall (fun y => f y = false) xs.
Proof.
  induction xs as [|x r IH]; simpl; [split; auto|].
  destruct (f x) eqn:Hx.
  - split; [done|]. intros H. apply Forall_cons in H as [? _]. congruence.
  - destruct (findIndex f r); simpl.
    + split; [done|]. intros H. apply Forall_cons in H as [_ H].
      by apply IH in H.
    + split; [|done]. intros _. constructor; [done|]. by apply IH.
Qed.

(** [find] returns the element at the position [findIndex] gives. *)
Lemma find_findIndex {A} (f : A -> bool) (xs : list A) :
  find f xs =
  match findIndex f xs with
  | Some i => (fun x => (i, x)) <$> xs !! i
  | None => None
  end.
Proof.
  induction xs as [|x r IH]; simpl; [done|].
  destruct (f x); [done|]. rewrite IH.
  destruct (findIndex f r) as [i|]; simpl; [|done].
  by destruct (r !! i).
Qed.

Lemma delete_middle {A} (l1 l2 : list A) (x : A) :
  delete (length l1) (l1 ++ x :: l2) = l1 ++ l2.
Proof. induction l1; simpl; [done|]. by f_equal. Qed.

Lemma insert_middle {A} (l1 l2 : list A) (x y : A) :
  <[length l1 := y]> (l1 ++ x :: l2) = l1 ++ y :: l2.
Proof. induction l1; simpl; [done|]. by f_equal. Qed.

End Helpers.

(** ** The document store *)

Section Store.

Lemma read_and_parse_world (w : World) : (read_and_parse w).2 = w.
Proof.
  unfold read_and_parse, bind, fs_readFile_db.
  destruct (dbfile w) as [| |[|d]]; done.
Qed.

Lemma read_and_parse_ENOENT (w : World) :
  (read_and_parse w).1 = Throw (SystemError "ENOENT") <-> file_absent w.
Proof.
  unfold read_and_parse, bind, fs_readFile_db, file_absent.
  destruct (dbfile w) as [|c|[|d]]; simpl.
  - split; auto.
  - split; [intros [= ->]; auto|intros [?|[= ->]]; done].
  - split; [done|intros [?|?]; done].
  - split; [done|intros [?|?]; done].
Qed.

Lemma readDb_world (w : World) : (readDb w).2 = w.
Proof.
  unfold readDb, try_catch, read_and_parse, bind, fs_readFile_db.
  destruct (dbfile w) as [|c|[|d]]; simpl; try done.
  repeat case_match; done.
Qed.

Lemma readDb_eq (w : World) : readDb w = ((readDb w).1, w).
Proof. rewrite <- (readDb_world w) at 3. by destruct (readDb w). Qed.

(** The outcome of [readDb] is a function of the file alone. *)
Lemma readDb_dbfile (w1 w2 : World) :
  dbfile w1 = dbfile w2 -> (readDb w1).1 = (readDb w2).1.
Proof.
  unfold readDb, try_catch, read_and_parse, bind, fs_readFile_db. intros ->.
  destruct (dbfile w2) as [|c|[|d]]; simpl; try done.
  repeat case_match; done.
Qed.

Lemma readDb_absent (w : World) :
  file_absent w -> readDb w = (Ok empty_db, w).
Proof.
  unfold readDb, try_catch, read_and_parse, bind, fs_readFile_db.
  by intros [-> | ->].
Qed.

Lemma readDb_json (w : World) (d : Document) :
  dbfile w = Text (Json d) -> readDb w = (Ok d, w).
Proof.
  unfold readDb, try_catch, read_and_parse, bind, fs_readFile_db.
  by intros ->.
Qed.

(** A failure other than ENOENT goes through [readDb] unchanged. *)
Lemma readDb_rethrow (w : World) (e : error) :
  ~ file_absent w -> (read_and_parse w).1 = Throw e ->
  readDb w = (Throw e, w).
Proof.
  unfold file_absent, readDb, try_catch, read_and_parse, bind,
    fs_readFile_db.
  intros Hne. destruct (dbfile w) as [|c|[|d]]; simpl; intros [= <-];
    try done; [tauto|].
  simpl. repeat case_match; subst; try done. tauto.
Qed.

(** When [readDb] succeeds the document is either the file's or, with
    no file, the default one. *)
Lemma readDb_Ok (w : World) (d : Document) :
  (readDb w).1 = Ok d ->
  dbfile w = Text (Json d) \/ (file_absent w /\ d = empty_db).
Proof.
  unfold file_absent, readDb, try_catch, read_and_parse, bind,
    fs_readFile_db.
  destruct (dbfile w) as [|c|[|d']]; simpl.
  - intros [= <-]. auto.
  - repeat case_match; subst; simpl; try done. intros [= <-]. auto.
  - done.
  - intros [= <-]. auto.
Qed.

Lemma writeDb_eq (d : Document) (w : World) :
  writeDb d w = (Ok tt, mkWorld (Text (Json d)) (uploads w) (console w)).
Proof. done. Qed.

End Store.

(** C7. [readDb] gives the default empty document when, and among the
    failures of reading only when, the file is absent (ENOENT); any other
    failure of [readFile] or [JSON.parse] is thrown on to the caller; a
    file that holds a document gives that document; and in every case the
    world, the stored file included, is left as it was.  Put together, the
    value returned is the empty document exactly when the file is absent or
    itself holds the empty document. *)
Theorem readDb_default_iff_absent (w : World) :
  (readDb w).2 = w /\
  (file_absent w -> (readDb w).1 = Ok empty_db) /\
  (forall e, ~ file_absent w -> (read_and_parse w).1 = Throw e ->
             (readDb w).1 = Throw e) /\
  (forall d, dbfile w = Text (Json d) -> (readDb w).1 = Ok d) /\
  (forall c, dbfile w = Unreadable c -> c <> "ENOENT" ->
             (readDb w).1 = Throw (SystemError c)) /\
  (dbfile w = Text Garbage -> (readDb w).1 = Throw SyntaxError) /\
  ((readDb w).1 = Ok empty_db <->
   file_absent w \/ dbfile w = Text (Json empty_db)).
Proof.
  split; [apply readDb_world|].
  split; [intros H; by rewrite (readDb_absent w H)|].
  split; [intros e H1 H2; by rewrite (readDb_rethrow w e H1 H2)|].
  split; [intros d H; by rewrite (readDb_json w d H)|].
  split.
  { intros c Hc Hne. rewrite (readDb_rethrow w (SystemError c)); [done| |].
    - unfold file_absent. rewrite Hc. intros [?|?]; congruence.
    - unfold read_and_parse, bind, fs_readFile_db. by rewrite Hc. }
  split.
  { intros Hg. rewrite (readDb_rethrow w SyntaxError); [done| |].
    - unfold file_absent. rewrite Hg. intros [?|?]; congruence.
    - unfold read_and_parse, bind, fs_readFile_db. by rewrite Hg. }
  split.
  - intros H. apply readDb_Ok in H as [H|[H _]]; auto.
  - intros [H|H];
      [by rewrite (readDb_absent w H)|by rewrite (readDb_json w _ H)].
Qed.

(** ** The routes, one equation per outcome *)

Section Routes.

Variables (w : World) (d : Document).
Hypothesis Hd : holds w d.

Local Lemma readDb_holds : readDb w = (Ok d, w).
Proof. rewrite readDb_eq. by rewrite Hd. Qed.

Lemma get_api_data_200 :
  get_api_data w = (mkResponse 200 (JsonDocument d), w).
Proof. unfold get_api_data, or_500, bind. by rewrite readDb_holds. Qed.

Lemma post_api_clients_201 (name email phone : value) :
  truthy name = true ->
  post_api_clients name email phone w =
  (mkResponse 201 (JsonClient (Client.mk (newId d) name email phone)),
   mkWorld
     (Text (Json (mkDocument
                    (clients d ++ [Client.mk (newId d) name email phone])
                    (photos d))))
     (uploads w) (console w)).
Proof.
  intros Hn. unfold post_api_clients, or_500. rewrite Hn. simpl.
  unfold bind. by rewrite readDb_holds.
Qed.

Lemma unlink_photo_ok (p : Photo.t) (w0 : World) :
  exists w1, unlink_photo p w0 = (Ok tt, w1) /\ dbfile w1 = dbfile w0.
Proof.
  unfold unlink_photo, try_catch, fs_unlink, console_error.
  destruct (has_file _ _); eauto.
Qed.

Lemma for_of_unlink_ok (ps : list Photo.t) (w0 : World) :
  exists w1,
    for_of ps unlink_photo w0 = (Ok tt, w1) /\ dbfile w1 = dbfile w0.
Proof.
  revert w0. induction ps as [|p ps IH]; intros w0; simpl; [by eexists|].
  unfold bind. destruct (unlink_photo_ok p w0) as (w1 & -> & E1).
  destruct (IH w1) as (w2 & -> & E2). exists w2. split; congruence.
Qed.

Lemma delete_api_clients_200 (id : string) (i : nat) :
  findIndex (is_client id) (clients d) = Some i ->
  exists w1,
    delete_api_clients id w =
    (mkResponse 200 (JsonMessage "Client and associated photos deleted"),
     w1) /\
    dbfile w1 =
    Text (Json (mkDocument
                  (delete i (clients d))
                  (List.filter
                     (fun p => negb (strict_eq (Photo.clientId p)
                                               (parseInt id)))
                     (photos d)))).
Proof.
  intros Hi. unfold delete_api_clients, or_500, bind.
  rewrite readDb_holds. fold (is_client id). rewrite Hi. simpl.
  match goal with |- context [for_of ?ps unlink_photo w] =>
    destruct (for_of_unlink_ok ps w) as (w1 & -> & E1) end.
  eexists. split; done.
Qed.

Lemma delete_api_clients_404 (id : string) :
  findIndex (is_client id) (clients d) = None ->
  delete_api_clients id w =
  (mkResponse 404 (JsonMessage "Client not found"), w).
Proof.
  intros Hi. unfold delete_api_clients, or_500, bind.
  rewrite readDb_holds. fold (is_client id). by rewrite Hi.
Qed.

Lemma delete_api_photos_200 (id : string) (i : nat) :
  findIndex (is_photo id) (photos d) = Some i ->
  exists w1,
    delete_api_photos id w =
    (mkResponse 200 (JsonMessage "Photo deleted"), w1) /\
    dbfile w1 =
    Text (Json (mkDocument (clients d) (delete i (photos d)))).
Proof.
  intros Hi. unfold delete_api_photos, or_500, bind.
  rewrite readDb_holds. fold (is_photo id). rewrite Hi.
  apply findIndex_Some in Hi as (l1 & x & l2 & E & <- & _).
  rewrite E, list_lookup_middle by done. simpl.
  destruct (unlink_photo_ok x w) as (w1 & -> & E1).
  eexists. split; [done|]. simpl. by rewrite <- E.
Qed.

Lemma delete_api_photos_404 (id : string) :
  findIndex (is_photo id) (photos d) = None ->
  delete_api_photos id w =
  (mkResponse 404 (JsonMessage "Photo not found"), w).
Proof.
  intros Hi. unfold delete_api_photos, or_500, bind.
  rewrite readDb_holds. fold (is_photo id). by rewrite Hi.
Qed.

Lemma put_api_photos_favorite_200 (id : string) (i : nat) (p : Photo.t) :
  find (is_photo id) (photos d) = Some (i, p) ->
  put_api_photos_favorite id w =
  (mkResponse 200 (JsonPhoto (flip_favorite p)),
   mkWorld
     (Text (Json (mkDocument (clients d)
                             (<[i := flip_favorite p]> (photos d)))))
     (uploads w) (console w)).
Proof.
  intros Hi. unfold put_api_photos_favorite, or_500, bind.
  rewrite readDb_holds. fold (is_photo id). by rewrite Hi.
Qed.

Lemma put_api_photos_favorite_404 (id : string) :
  find (is_photo id) (photos d) = None ->
  put_api_photos_favorite id w =
  (mkResponse 404 (JsonMessage "Photo not found"), w).
Proof.
  intros Hi. unfold put_api_photos_favorite, or_500, bind.
  rewrite readDb_holds. fold (is_photo id). by rewrite Hi.
Qed.

Lemma post_api_photos_201 (clientId : option string)
    (fs : list UploadedFile) (now : nat -> string) :
  truthy (field clientId) = true -> fs <> [] ->
  post_api_photos clientId (Some fs) now w =
  (mkResponse 201 (JsonPhotos (newPhotos (maxId d) clientId fs now)),
   mkWorld
     (Text (Json (mkDocument
                    (clients d)
                    (photos d ++ newPhotos (maxId d) clientId fs now))))
     (uploads w ++ map filename fs) (console w)).
Proof.
  intros Hc Hfs.
  unfold post_api_photos, post_api_photos_handler, or_500, bind,
    upload_array.
  rewrite Hc. simpl.
  destruct fs as [|f fs]; [done|]. simpl.
  match goal with |- context [readDb ?w1] =>
    rewrite (readDb_eq w1), (readDb_dbfile w1 w eq_refl), Hd end.
  done.
Qed.

End Routes.

Lemma post_api_clients_400 (name email phone : value) (w : World) :
  truthy name = false ->
  post_api_clients name email phone w =
  (mkResponse 400 (JsonMessage "Client name is required"), w).
Proof. intros Hn. unfold post_api_clients, or_500. by rewrite Hn. Qed.

Lemma post_api_photos_400 (clientId : option string)
    (files : option (list UploadedFile)) (now : nat -> string) (w : World) :
  truthy (field clientId) = false \/ default [] files = [] ->
  post_api_photos clientId files now w =
  (mkResponse 400 (JsonMessage "Client ID and files are required"),
   after_multer w files).
Proof.
  intros H.
  unfold post_api_photos, post_api_photos_handler, or_500, bind,
    upload_array.
  simpl.
  destruct H as [-> | H]; [done|].
  destruct files as [[|f fs]|]; simpl in *; try done;
    by rewrite orb_true_r.
Qed.

(** With a store that cannot be loaded every route that loads it answers
    500 and leaves the file alone. *)
Lemma handle_500 (r : Request) (w : World) (e : error) :
  (readDb w).1 = Throw e ->
  (status (handle r w).1 = 400 \/ status (handle r w).1 = 500) /\
  dbfile (handle r w).2 = dbfile w.
Proof.
  intros He.
  assert (Hr : readDb w = (Throw e, w)) by (by rewrite readDb_eq, He).
  destruct r as [|name email phone|id|cid files now|id|id]; simpl.
  - unfold get_api_data, or_500, bind. rewrite Hr. auto.
  - unfold post_api_clients, or_500, bind.
    destruct (truthy name); simpl; [rewrite Hr|]; auto.
  - unfold delete_api_clients, or_500, bind. rewrite Hr. auto.
  - unfold post_api_photos, post_api_photos_handler, or_500, bind,
      upload_array.
    simpl.
    destruct (_ || _); simpl; [auto|].
    match goal with |- context [readDb ?w1] =>
      rewrite (readDb_eq w1), (readDb_dbfile w1 w eq_refl), He end.
    auto.
  - unfold delete_api_photos, or_500, bind. rewrite Hr. auto.
  - unfold put_api_photos_favorite, or_500, bind. rewrite Hr. auto.
Qed.

(** ** Listing *)

(** C8. GET /api/data leaves the world, the stored document included,
    exactly as it was; it answers with the loaded document as it is; and
    any number of calls in a row give the same answer each time. *)
Theorem get_api_data_readonly (w : World) :
  (get_api_data w).2 = w /\
  (forall d, holds w d ->
             (get_api_data w).1 = mkResponse 200 (JsonDocument d)) /\
  (forall n, serve (replicate n GetData) w =
             (replicate n (get_api_data w).1, w)).
Proof.
  assert (Hw : (get_api_data w).2 = w).
  { unfold get_api_data, or_500, bind. rewrite (readDb_eq w).
    by destruct (readDb w).1. }
  split; [done|]. split.
  - intros d Hd. by rewrite (get_api_data_200 w d Hd).
  - induction n as [|n IH]; simpl; [done|].
    destruct (get_api_data w) as [r w1] eqn:E. simpl in *. subst w1.
    by rewrite IH.
Qed.

(** ** Creating clients *)

Section Create.

Lemma newId_empty (d : Document) : clients d = [] -> newId d = 1.
Proof. unfold newId. by intros ->. Qed.

Lemma newId_max (d : Document) :
  clients d <> [] ->
  exists m, In m (map Client.id (clients d)) /\
            (forall x, In x (map Client.id (clients d)) -> x <= m) /\
            newId d = js_add m 1.
Proof.
  intros Hne. exists (Math_max (map Client.id (clients d))).
  assert (map Client.id (clients d) <> []) by (by destruct (clients d)).
  split; [by apply Math_max_elem|]. split; [apply Math_max_bound|].
  unfold newId. by rewrite (proj2 (length_pos_nonempty _) Hne).
Qed.

(** While the ids are in the range where doubles count without a gap, the
    next id is above every id present, and in that range too. *)
Lemma newId_within (d : Document) (b : Z) :
  0 <= b < 2 ^ 53 ->
  (forall c, c ∈ clients d -> - 2 ^ 53 <= Client.id c <= b) ->
  (forall c, c ∈ clients d -> Client.id c < newId d) /\
  - 2 ^ 53 <= newId d <= b + 1.
Proof.
  intros Hb Hw. destruct (decide (clients d = [])) as [E|E].
  - rewrite (newId_empty d E), E. split; [|lia]. intros c Hc.
    by apply elem_of_nil in Hc.
  - destruct (newId_max d E) as (m & Hm & Hle & ->).
    apply in_map_iff in Hm as (c0 & <- & Hc0).
    apply list_elem_of_In, Hw in Hc0.
    rewrite js_add_small by lia. split; [|lia].
    intros c Hc. apply list_elem_of_In in Hc.
    specialize (Hle _ (in_map Client.id _ _ Hc)). lia.
Qed.

Lemma newId_snoc (d : Document) (c : Client.t) (ps : list Photo.t) (b : Z) :
  0 <= b -> b + 2 <= 2 ^ 53 ->
  (forall c, c ∈ clients d -> - 2 ^ 53 <= Client.id c <= b) ->
  Client.id c = newId d ->
  newId (mkDocument (clients d ++ [c]) ps) = newId d + 1.
Proof.
  intros Hb Hb2 Hw Hc.
  destruct (newId_within d b) as [Habove Hrange]; [lia|done|].
  unfold newId at 1. cbn [clients].
  rewrite (proj2 (length_pos_nonempty (clients d ++ [c])))
    by (by destruct (clients d)).
  rewrite map_app. cbn [map]. rewrite Hc.
  assert (Math_max (map Client.id (clients d) ++ [newId d]) = newId d) as ->.
  { destruct (decide (clients d = [])) as [E|E]; [by rewrite E|].
    rewrite Math_max_snoc by (by destruct (clients d)).
    assert (map Client.id (clients d) <> []) as Hne
      by (by destruct (clients d)).
    apply Math_max_elem, in_map_iff in Hne as (c0 & <- & Hc0).
    apply list_elem_of_In, Habove in Hc0. lia. }
  apply js_add_small. lia.
Qed.

(** Creations served in a row take consecutive ids, as long as these stay
    in the range where doubles count without a gap. *)
Lemma serve_create (bodies : list (value * value * value)) :
  forall (w : World) (d : Document) (b : Z),
    holds w d ->
    0 <= b ->
    (forall c, c ∈ clients d -> - 2 ^ 53 <= Client.id c <= b) ->
    b + Z.of_nat (length bodies) <= 2 ^ 53 ->
    Forall (fun b => truthy b.1.1 = true) bodies ->
    (serve (map create bodies) w).1 =
    imap (fun i b =>
            mkResponse 201
              (JsonClient (Client.mk (newId d + Z.of_nat i)
                                     b.1.1 b.1.2 b.2)))
         bodies.
Proof.
  induction bodies as [|[[name email] phone] bodies IH];
    intros w d b Hd Hb Hw Hlen Hall; simpl; [done|].
  apply Forall_cons in Hall as [Hn Hall]. simpl in Hn.
  rewrite (post_api_clients_201 w d Hd name email phone Hn).
  set (c := Client.mk (newId d) name email phone).
  set (w1 := mkWorld _ _ _).
  specialize (IH w1 (mkDocument (clients d ++ [c]) (photos d)) (b + 1)).
  destruct (serve (map create bodies) w1) as [rs w2]. simpl in *.
  destruct (newId_within d b) as [Habove Hrange]; [lia|done|].
  rewrite Z.add_0_r. f_equal.
  rewrite IH; [|unfold holds; by rewrite (readDb_json w1 _ eq_refl)
               |lia| |lia|done].
  - apply imap_ext. intros i [[n e] p] Hi. simpl.
    apply lookup_lt_Some in Hi.
    rewrite (newId_snoc d c (photos d) b) by (done || lia).
    do 3 f_equal. lia.
  - intros c' Hc'. apply elem_of_app in Hc' as [Hc'|Hc'].
    + apply Hw in Hc'. lia.
    + apply list_elem_of_singleton in Hc'. subst c'. simpl. lia.
Qed.

End Create.

(** C1, as the code has it.  Creating a client with a name that passes the
    test of the route (a non-empty string, or any other truthy value)
    answers 201 with the created client, and the stored document is the
    loaded one with exactly that client added at the end of [clients]; its
    id is 1 when there was no client, and otherwise the double nearest to
    one more than the largest id [m] present, which is [m + 1] itself as
    long as [m] is at least [- 2 ^ 53] and below [2 ^ 53].  Served one
    after the other from a store with no client, at most [2 ^ 53]
    creations get the ids 1, 2, 3, ... in order. *)
Theorem post_api_clients_next_id
    (w : World) (d : Document) (name email phone : value) :
  holds w d ->
  truthy name = true ->
  let c := Client.mk (newId d) name email phone in
  post_api_clients name email phone w =
  (mkResponse 201 (JsonClient c),
   mkWorld (Text (Json (mkDocument (clients d ++ [c]) (photos d))))
           (uploads w) (console w)) /\
  (clients d = [] -> Client.id c = 1) /\
  (clients d <> [] ->
   exists m, In m (map Client.id (clients d)) /\
             (forall x, In x (map Client.id (clients d)) -> x <= m) /\
             Client.id c = js_add m 1 /\
             (- 2 ^ 53 <= m < 2 ^ 53 -> Client.id c = m + 1)) /\
  (forall bodies : list (value * value * value),
     clients d = [] ->
     Z.of_nat (length bodies) <= 2 ^ 53 ->
     Forall (fun b => truthy b.1.1 = true) bodies ->
     (serve (map create bodies) w).1 =
     imap (fun i b =>
             mkResponse 201
               (JsonClient (Client.mk (Z.of_nat i + 1) b.1.1 b.1.2 b.2)))
          bodies).
Proof.
  intros Hd Hn c. split; [by apply post_api_clients_201|].
  split; [apply newId_empty|]. split.
  - intros Hne. destruct (newId_max d Hne) as (m & H1 & H2 & H3).
    exists m. repeat split; try done.
    intros Hm. simpl. rewrite H3. apply js_add_small. lia.
  - intros bodies He Hlen Hall.
    rewrite (serve_create bodies w d 0 Hd); [|done| |lia|done].
    + apply imap_ext. intros i b _. simpl. rewrite (newId_empty d He).
      do 3 f_equal. lia.
    + rewrite He. intros c' Hc'. by apply elem_of_nil in Hc'.
Qed.

Lemma post_api_clients_next_id_witness :
  (post_api_clients (VStr "Alice") VUndefined VUndefined fresh).1 =
  mkResponse 201
    (JsonClient (Client.mk 1 (VStr "Alice") VUndefined VUndefined)) /\
  (serve (map create [(VStr "Alice", VUndefined, VUndefined);
                      (VStr "Bob", VNull, VStr "0700")]) fresh).1 =
  [mkResponse 201
     (JsonClient (Client.mk 1 (VStr "Alice") VUndefined VUndefined));
   mkResponse 201 (JsonClient (Client.mk 2 (VStr "Bob") VNull (VStr "0700")))] /\
  (post_api_clients (VStr "Carol") VUndefined VUndefined gallery).1 =
  mkResponse 201
    (JsonClient (Client.mk 3 (VStr "Carol") VUndefined VUndefined)).
Proof.
  destruct (post_api_clients_next_id fresh empty_db (VStr "Alice")
              VUndefined VUndefined eq_refl eq_refl) as (H1 & _ & _ & H4).
  destruct (post_api_clients_next_id gallery gallery_db (VStr "Carol")
              VUndefined VUndefined eq_refl eq_refl) as (G1 & _ & _ & _).
  split; [|split].
  - rewrite H1. reflexivity.
  - rewrite H4; [reflexivity|reflexivity|by vm_compute|].
    repeat constructor.
  - rewrite G1. reflexivity.
Defined.

(** C1 as the specification states it fails where doubles stop counting:
    the only client of [brim_db] has the id [2 ^ 53], and the client
    created next is given [2 ^ 53] again, not [2 ^ 53 + 1]. *)
Lemma post_api_clients_next_id_counterexample :
  holds brim brim_db /\
  Math_max (map Client.id (clients brim_db)) = 9007199254740992 /\
  (post_api_clients (VStr "Amy") VUndefined VUndefined brim).1 =
  mkResponse 201
    (JsonClient
       (Client.mk 9007199254740992 (VStr "Amy") VUndefined VUndefined)) /\
  9007199254740992 <> 9007199254740992 + 1.
Proof. repeat split; by vm_compute. Qed.

(** ** Deleting a client *)

Section Cascade.

(** The filter of the route keeps the photos of every other client. *)
Lemma filter_other_clients (z : Z) (ps : list Photo.t) :
  List.filter (fun p => negb (strict_eq (Photo.clientId p) (Num z))) ps =
  filter (fun p => Photo.clientId p <> VNum z) ps.
Proof.
  induction ps as [|p ps IH]; [done|]. simpl. rewrite filter_cons, IH.
  destruct (strict_eq (Photo.clientId p) (Num z)) eqn:E; simpl.
  - apply strict_eq_true in E. by rewrite decide_False by tauto.
  - rewrite decide_True; [done|]. intros H.
    apply strict_eq_true in H. congruence.
Qed.

(** With NaN for an id the filter keeps everything. *)
Lemma filter_NaN (ps : list Photo.t) :
  List.filter (fun p => negb (strict_eq (Photo.clientId p) NaN)) ps = ps.
Proof.
  induction ps as [|p ps IH]; [done|]. simpl.
  by rewrite strict_eq_NaN, IH.
Qed.

Lemma is_client_true (id : string) (c : Client.t) :
  is_client id c = true <-> parseInt id = Num (Client.id c).
Proof. apply strict_eq_id. Qed.

Lemma is_photo_true (id : string) (p : Photo.t) :
  is_photo id p = true <-> parseInt id = Num (Photo.id p).
Proof. apply strict_eq_id. Qed.

(** With distinct ids, the client that carries the id of the path is
    the one [findIndex] stops at. *)
Lemma findIndex_client (id : string) (l1 l2 : list Client.t) (C : Client.t) :
  NoDup (map Client.id (l1 ++ C :: l2)) ->
  parseInt id = Num (Client.id C) ->
  findIndex (is_client id) (l1 ++ C :: l2) = Some (length l1) /\
  C ∉ l1 ++ l2.
Proof.
  intros Hnd Hid. rewrite map_app in Hnd. simpl in Hnd.
  apply NoDup_app in Hnd as (_ & Hl1 & Hnd).
  apply NoDup_cons in Hnd as [Hl2 _]. split.
  - apply findIndex_Some. exists l1, C, l2.
    repeat split; [by apply is_client_true|].
    apply Forall_forall. intros c Hc.
    destruct (is_client id c) eqn:E; [|done].
    apply is_client_true in E. rewrite Hid in E. injection E as E.
    exfalso. apply (Hl1 (Client.id c)).
    + apply list_elem_of_fmap. eauto.
    + rewrite <- E. left.
  - intros [H|H]%elem_of_app.
    + apply (Hl1 (Client.id C)); [|left].
      apply list_elem_of_fmap. eauto.
    + apply Hl2. apply list_elem_of_fmap. eauto.
Qed.

End Cascade.

(** C2, as the code has it.  In a document whose client ids are pairwise
    distinct, deleting the client [C] by its id answers 200 and stores the
    document in which [clients] is the old list without [C], the rest in
    place and in order, and [photos] is the old list without exactly the
    photos whose [clientId] is the id of [C], the rest in place and in
    order.  The files in the uploads directory play no part in the
    outcome.  The id of the path is any text in which [parseInt] reads the
    id of [C]; the decimal numeral of the id is one, by
    [parseInt_double]. *)
Theorem delete_api_clients_cascade
    (w : World) (d : Document) (id : string) (C : Client.t) :
  holds w d ->
  NoDup (map Client.id (clients d)) ->
  C ∈ clients d ->
  parseInt id = Num (Client.id C) ->
  exists l1 l2 w1 d1,
    clients d = l1 ++ C :: l2 /\
    delete_api_clients id w =
    (mkResponse 200 (JsonMessage "Client and associated photos deleted"),
     w1) /\
    dbfile w1 = Text (Json d1) /\
    clients d1 = l1 ++ l2 /\
    (C ∉ clients d1) /\
    photos d1 =
    filter (fun p => Photo.clientId p <> VNum (Client.id C)) (photos d) /\
    (forall p, p ∈ photos d1 <->
               p ∈ photos d /\ Photo.clientId p <> VNum (Client.id C)).
Proof.
  intros Hd Hnd HC Hid.
  apply list_elem_of_split in HC as (l1 & l2 & E).
  rewrite E in Hnd. destruct (findIndex_client id l1 l2 C Hnd Hid) as [Hi Hout].
  rewrite <- E in Hi.
  destruct (delete_api_clients_200 w d Hd id _ Hi) as (w1 & Hr & Hw).
  rewrite Hid, filter_other_clients, E, delete_middle in Hw.
  eexists l1, l2, w1, _. split; [done|]. split; [done|].
  split; [exact Hw|]. simpl. split; [done|]. split; [done|].
  split; [done|]. intros p. rewrite list_elem_of_filter. tauto.
Qed.

Lemma delete_api_clients_cascade_witness :
  exists w1,
    delete_api_clients "1" gallery =
    (mkResponse 200 (JsonMessage "Client and associated photos deleted"),
     w1) /\
    dbfile w1 = Text (Json (mkDocument [bob] [photo2])).
Proof.
  destruct (delete_api_clients_cascade gallery gallery_db "1" alice)
    as (l1 & l2 & w1 & d1 & E & Hr & Hw & Hc & _ & Hp & _).
  - reflexivity.
  - compute_done.
  - left.
  - reflexivity.
  - exists w1. split; [exact Hr|].
    rewrite Hw. destruct d1 as [cs ps]. simpl in *.
    subst cs ps. do 2 f_equal. f_equal.
    destruct l1 as [|c l1]; simpl in E.
    + injection E as <-. done.
    + injection E as _ E. destruct l1 as [|c' l1]; simpl in E.
      * injection E as E _. discriminate E.
      * injection E as _ E. by destruct l1.
Defined.

(** C2 as the specification states it, for every document, fails when two
    clients carry the same id: [twin2] is a client of [twins_db] and the
    path names its id, yet the delete removes [twin1], the first client
    with that id, and [twin2] is still in the stored document. *)
Lemma delete_api_clients_cascade_counterexample :
  holds twins twins_db /\
  twin2 ∈ clients twins_db /\
  parseInt "1" = Num (Client.id twin2) /\
  delete_api_clients "1" twins =
  (mkResponse 200 (JsonMessage "Client and associated photos deleted"),
   mkWorld (Text (Json (mkDocument [twin2] []))) [] []) /\
  twin2 ∈ clients (mkDocument [twin2] []).
Proof.
  split; [reflexivity|]. split; [by right; left|]. split; [reflexivity|].
  split; [reflexivity|]. by left.
Qed.

(** ** Toggling the favorite flag *)

Section Favorite.

Lemma find_Some {A} (f : A -> bool) (xs : list A) (i : nat) (x : A) :
  find f xs = Some (i, x) <->
  exists l1 l2,
    xs = l1 ++ x :: l2 /\ length l1 = i /\ f x = true /\
    Forall (fun y => f y = false) l1.
Proof.
  rewrite find_findIndex. split.
  - destruct (findIndex f xs) as [j|] eqn:Hj; [|done].
    apply findIndex_Some in Hj as (l1 & y & l2 & -> & <- & Hy & Hall).
    rewrite list_lookup_middle by done. intros [= <-].
    exists l1, l2. subst. auto.
  - intros (l1 & l2 & -> & <- & Hx & Hall).
    rewrite (proj2 (findIndex_Some f (l1 ++ x :: l2) (length l1)))
      by eauto 10.
    by rewrite list_lookup_middle.
Qed.

Lemma find_None {A} (f : A -> bool) (xs : list A) :
  find f xs = None <-> Forall (fun y => f y = false) xs.
Proof.
  rewrite find_findIndex, <- findIndex_None.
  destruct (findIndex f xs) as [j|] eqn:Hj; [|done].
  apply findIndex_Some in Hj as (l1 & y & l2 & -> & <- & _).
  by rewrite list_lookup_middle.
Qed.

(** An element that passes the test makes [find] succeed, at that
    element or before it. *)
Lemma find_first {A} (f : A -> bool) (xs : list A) (i : nat) (x : A) :
  xs !! i = Some x -> f x = true ->
  exists j y, find f xs = Some (j, y) /\ (j <= i)%nat /\
              xs !! j = Some y /\ f y = true.
Proof.
  intros Hi Hx. destruct (find f xs) as [[j y]|] eqn:E.
  - exists j, y. split; [done|].
    apply find_Some in E as (l1 & l2 & -> & <- & Hy & Hall).
    rewrite list_lookup_middle by done. repeat split; [|done].
    destruct (decide (length l1 <= i)%nat) as [|Hlt]; [done|].
    rewrite lookup_app_l in Hi by lia.
    rewrite Forall_forall in Hall.
    apply list_elem_of_lookup_2 in Hi. apply Hall in Hi. congruence.
  - apply find_None in E. rewrite Forall_forall in E.
    apply list_elem_of_lookup_2 in Hi. apply E in Hi. congruence.
Qed.

Lemma flip_favorite_id (p : Photo.t) :
  Photo.id (flip_favorite p) = Photo.id p.
Proof. done. Qed.


(** The photo the route finds for the id of [P]: [P] itself when photo
    ids are distinct, and in any case the first photo with that id. *)
Lemma find_photo (d : Document) (id : string) (i : nat) (P : Photo.t) :
  photos d !! i = Some P ->
  parseInt id = Num (Photo.id P) ->
  exists j Q,
    find (is_photo id) (photos d) = Some (j, Q) /\
    (j <= i)%nat /\ photos d !! j = Some Q /\
    Photo.id Q = Photo.id P /\
    (NoDup (map Photo.id (photos d)) -> j = i /\ Q = P).
Proof.
  intros Hi Hid.
  destruct (find_first (is_photo id) (photos d) i P Hi)
    as (j & Q & Hf & Hle & Hj & HQ); [by apply is_photo_true|].
  apply is_photo_true in HQ. rewrite Hid in HQ. injection HQ as HQ.
  exists j, Q. repeat split; auto.
  - assert (j = i); [|subst j; congruence].
    apply (NoDup_lookup (map Photo.id (photos d)) j i (Photo.id P)); auto.
    + by rewrite list_lookup_fmap, Hj, HQ.
    + by rewrite list_lookup_fmap, Hi.
  - assert (j = i); [|subst j; congruence].
    apply (NoDup_lookup (map Photo.id (photos d)) j i (Photo.id P)); auto.
    + by rewrite list_lookup_fmap, Hj, HQ.
    + by rewrite list_lookup_fmap, Hi.
Qed.

(** After a toggle the same id finds the toggled photo at the same
    place. *)
Lemma find_after_flip (id : string) (ps : list Photo.t) (j : nat)
    (Q : Photo.t) :
  find (is_photo id) ps = Some (j, Q) ->
  find (is_photo id) (<[j := flip_favorite Q]> ps) =
  Some (j, flip_favorite Q).
Proof.
  intros (l1 & l2 & -> & <- & HQ & Hall)%find_Some.
  rewrite insert_middle. apply find_Some. exists l1, l2. auto.
Qed.

End Favorite.



(** C9, as the code has it.  Let [P] be a photo of a loaded document whose
    photo ids are pairwise distinct.  A toggle on the id of [P] succeeds,
    and the stored document differs from the loaded one in [P] only:
    [clients] is the same list, [photos] has the same length and the same
    photo at every other place, and at the place of [P] is the photo the
    route answers with, which has the [id], [clientId], [name], [url],
    [size] and [uploaded] of [P] and the negation of its [favorite].  The
    uploads directory and the log are untouched. *)
Theorem put_api_photos_favorite_frame
    (w : World) (d : Document) (id : string) (i : nat) (P : Photo.t) :
  holds w d ->
  NoDup (map Photo.id (photos d)) ->
  photos d !! i = Some P ->
  parseInt id = Num (Photo.id P) ->
  exists P' d1,
    put_api_photos_favorite id w =
    (mkResponse 200 (JsonPhoto P'),
     mkWorld (Text (Json d1)) (uploads w) (console w)) /\
    clients d1 = clients d /\
    length (photos d1) = length (photos d) /\
    photos d1 !! i = Some P' /\
    (forall k, k <> i -> photos d1 !! k = photos d !! k) /\
    Photo.id P' = Photo.id P /\
    Photo.clientId P' = Photo.clientId P /\
    Photo.name P' = Photo.name P /\
    Photo.url P' = Photo.url P /\
    Photo.size P' = Photo.size P /\
    Photo.uploaded P' = Photo.uploaded P /\
    Photo.favorite P' = js_not (Photo.favorite P).
Proof.
  intros Hd Hnd Hi Hid.
  destruct (find_photo d id i P Hi Hid) as (j & Q & Hf & Hle & Hj & HQ & Hu).
  destruct (Hu Hnd) as [-> ->].
  eexists (flip_favorite P), _.
  split; [exact (put_api_photos_favorite_200 w d Hd id i P Hf)|]. simpl.
  split; [done|]. split; [apply length_insert|].
  split; [apply list_lookup_insert_eq; by apply lookup_lt_Some in Hj|].
  split; [intros k Hk; by apply list_lookup_insert_ne|].
  repeat split.
Qed.

Lemma put_api_photos_favorite_frame_witness :
  exists Q' d1,
    put_api_photos_favorite "3" gallery =
    (mkResponse 200 (JsonPhoto Q'),
     mkWorld (Text (Json d1)) ["photos-1.jpg"; "photos-2.jpg"] []) /\
    Photo.favorite Q' = VBool true /\
    Photo.url Q' = "/uploads/photos-3.jpg" /\
    clients d1 = [alice; bob] /\
    photos d1 !! 0%nat = Some photo1 /\
    photos d1 !! 1%nat = Some photo2 /\
    photos d1 !! 2%nat = Some Q'.
Proof.
  assert (NoDup (map Photo.id (photos gallery_db))) as Hnd by compute_done.
  destruct (put_api_photos_favorite_frame gallery gallery_db "3" 2 photo3
              eq_refl Hnd eq_refl eq_refl)
    as (Q' & d1 & H1 & Hc & _ & Hj & Hk & _ & _ & _ & Hu & _ & _ & Hfav).
  exists Q', d1. split; [exact H1|]. split; [exact Hfav|].
  split; [exact Hu|]. split; [exact Hc|].
  split; [by rewrite Hk|]. split; [by rewrite Hk|]. exact Hj.
Defined.

(** C9 as the specification states it, for every document, fails when two
    photos carry the same id: [copy2] is a photo of [copies_db] and the
    path names its id, yet the toggle succeeds on [copy1], the first photo
    with that id; [copy2] is stored as it was and another photo has
    changed. *)
Lemma put_api_photos_favorite_frame_counterexample :
  holds copies copies_db /\
  photos copies_db !! 1%nat = Some copy2 /\
  parseInt "5" = Num (Photo.id copy2) /\
  put_api_photos_favorite "5" copies =
  (mkResponse 200 (JsonPhoto (flip_favorite copy1)),
   mkWorld (Text (Json (mkDocument [twin1] [flip_favorite copy1; copy2])))
           [] []) /\
  flip_favorite copy1 <> copy1.
Proof. repeat split; (reflexivity || discriminate). Qed.

(** ** Refused requests *)

Section Refused.

Lemma no_client_iff (id : string) (d : Document) :
  findIndex (is_client id) (clients d) = None <->
  forall c, c ∈ clients d -> parseInt id <> Num (Client.id c).
Proof.
  rewrite findIndex_None, Forall_forall. split; intros H c Hc.
  - intros E%is_client_true. specialize (H c Hc). congruence.
  - destruct (is_client id c) eqn:E; [|done].
    apply is_client_true in E. by apply H in E.
Qed.

Lemma no_photo_iff (id : string) (d : Document) :
  find (is_photo id) (photos d) = None <->
  forall p, p ∈ photos d -> parseInt id <> Num (Photo.id p).
Proof.
  rewrite find_None, Forall_forall. split; intros H c Hc.
  - intros E%is_photo_true. specialize (H c Hc). congruence.
  - destruct (is_photo id c) eqn:E; [|done].
    apply is_photo_true in E. by apply H in E.
Qed.

Lemma no_photo_index_iff (id : string) (d : Document) :
  findIndex (is_photo id) (photos d) = None <->
  forall p, p ∈ photos d -> parseInt id <> Num (Photo.id p).
Proof. rewrite <- no_photo_iff, find_None. apply findIndex_None. Qed.

(** A refused request gets its status and leaves the refused world. *)
Lemma rejected_refused (r : Request) (w : World) :
  rejected r w ->
  status (handle r w).1 = refusal r /\ (handle r w).2 = refused_world r w.
Proof.
  destruct r as [|name email phone|id|cid files now|id|id]; simpl.
  - done.
  - intros H. by rewrite post_api_clients_400.
  - intros (d & Hd & H). apply no_client_iff in H.
    by rewrite (delete_api_clients_404 w d Hd id H).
  - intros H. by rewrite post_api_photos_400.
  - intros (d & Hd & H). apply no_photo_index_iff in H.
    by rewrite (delete_api_photos_404 w d Hd id H).
  - intros (d & Hd & H). apply no_photo_iff in H.
    by rewrite (put_api_photos_favorite_404 w d Hd id H).
Qed.

(** Only a refused request is answered 400 or 404. *)
Lemma status_rejected (r : Request) (w : World) :
  status (handle r w).1 = 400 \/ status (handle r w).1 = 404 ->
  rejected r w.
Proof.
  destruct ((readDb w).1) as [d|e] eqn:Hd.
  - change (holds w d) in Hd.
    destruct r as [|name email phone|id|cid files now|id|id]; simpl.
    + rewrite (get_api_data_200 w d Hd). simpl. lia.
    + destruct (truthy name) eqn:Hn; [|done].
      rewrite (post_api_clients_201 w d Hd _ _ _ Hn). simpl. lia.
    + destruct (findIndex (is_client id) (clients d)) as [i|] eqn:Hi.
      * destruct (delete_api_clients_200 w d Hd id i Hi) as (w1 & -> & _).
        simpl. lia.
      * intros _. exists d. split; [done|]. by apply no_client_iff.
    + destruct (truthy (field cid)) eqn:Hc; [|auto].
      destruct files as [[|f fs]|]; simpl; auto.
      rewrite (post_api_photos_201 w d Hd cid (f :: fs) now Hc); [|done].
      simpl. lia.
    + destruct (findIndex (is_photo id) (photos d)) as [i|] eqn:Hi.
      * destruct (delete_api_photos_200 w d Hd id i Hi) as (w1 & -> & _).
        simpl. lia.
      * intros _. exists d. split; [done|]. by apply no_photo_index_iff.
    + destruct (find (is_photo id) (photos d)) as [[i p]|] eqn:Hi.
      * rewrite (put_api_photos_favorite_200 w d Hd id i p Hi). simpl. lia.
      * intros _. exists d. split; [done|]. by apply no_photo_iff.
  - assert (Hr : readDb w = (Throw e, w)) by (by rewrite readDb_eq, Hd).
    destruct r as [|name email phone|id|cid files now|id|id]; simpl.
    + unfold get_api_data, or_500, bind. rewrite Hr. simpl. lia.
    + destruct (truthy name) eqn:Hn; [|done].
      unfold post_api_clients, or_500. rewrite Hn. simpl. unfold bind.
      rewrite Hr. simpl. lia.
    + unfold delete_api_clients, or_500, bind. rewrite Hr. simpl. lia.
    + destruct (truthy (field cid)) eqn:Hc; [|auto].
      destruct files as [[|f fs]|]; simpl; auto.
      unfold post_api_photos, post_api_photos_handler, or_500, bind,
        upload_array.
      rewrite Hc. simpl.
      match goal with |- context [readDb ?w1] =>
        rewrite (readDb_eq w1), (readDb_dbfile w1 w eq_refl), Hd end.
      simpl. lia.
    + unfold delete_api_photos, or_500, bind. rewrite Hr. simpl. lia.
    + unfold put_api_photos_favorite, or_500, bind. rewrite Hr. simpl. lia.
Qed.

End Refused.

(** C3. A request is answered 400 or 404 exactly when it is refused: a
    client created with the name missing, an upload with the clientId
    missing or with no file (400), a delete or a toggle on an id that no
    record of the loaded document has (404).  In each of these cases the
    handler returns before it changes anything: [db.json] is what it was,
    nothing is logged, and the whole world is the one before the request,
    but for the files multer has stored by the time an upload is refused. *)
Theorem refused_requests_write_nothing (r : Request) (w : World) :
  rejected r w \/
  status (handle r w).1 = 400 \/ status (handle r w).1 = 404 ->
  rejected r w /\
  status (handle r w).1 = refusal r /\
  dbfile (handle r w).2 = dbfile w /\
  console (handle r w).2 = console w /\
  (handle r w).2 = refused_world r w.
Proof.
  intros H.
  assert (Hr : rejected r w) by (destruct H; [done|by apply status_rejected]).
  destruct (rejected_refused r w Hr) as [Hs Hw].
  split; [done|]. split; [done|]. rewrite Hw.
  by destruct r.
Qed.

Lemma refused_requests_write_nothing_witness :
  status (handle (DeletePhotos "9") gallery).1 = 404 /\
  (handle (DeletePhotos "9") gallery).2 = gallery /\
  status (handle (PostClients (VStr "") VNull VNull) gallery).1 = 400 /\
  dbfile (handle (PostClients (VStr "") VNull VNull) gallery).2 =
  dbfile gallery.
Proof.
  assert (H1 : status (handle (DeletePhotos "9") gallery).1 = 400 \/
               status (handle (DeletePhotos "9") gallery).1 = 404)
    by (right; reflexivity).
  assert (H2 : rejected (PostClients (VStr "") VNull VNull) gallery)
    by reflexivity.
  destruct (refused_requests_write_nothing (DeletePhotos "9") gallery
              (or_intror H1)) as (_ & Hs1 & _ & _ & Hw1).
  destruct (refused_requests_write_nothing
              (PostClients (VStr "") VNull VNull) gallery (or_introl H2))
    as (_ & Hs2 & Hd2 & _).
  repeat split; assumption.
Defined.

(** ** Uploading photos *)

Section Upload.

Variables (m : Z) (clientId : option string) (now : nat -> string).

Lemma newPhotos_lookup (fs : list UploadedFile) (i : nat) :
  newPhotos m clientId fs now !! i =
  (fun file =>
     Photo.mk (js_add (js_add m (Z.of_nat i)) 1)
              (JSON_number (parseInt (ToString clientId)))
              (originalname file)
              ("/uploads/" ++ filename file)
              (file_size file) (now i) (VBool false)) <$> fs !! i.
Proof. unfold newPhotos. by rewrite list_lookup_imap. Qed.

Lemma newPhotos_length (fs : list UploadedFile) :
  length (newPhotos m clientId fs now) = length fs.
Proof. apply length_imap. Qed.

Lemma newPhotos_elem (fs : list UploadedFile) (p : Photo.t) :
  p ∈ newPhotos m clientId fs now ->
  exists i file,
    fs !! i = Some file /\
    p = Photo.mk (js_add (js_add m (Z.of_nat i)) 1)
                 (JSON_number (parseInt (ToString clientId)))
                 (originalname file)
                 ("/uploads/" ++ filename file)
                 (file_size file) (now i) (VBool false).
Proof.
  intros [i Hi]%list_elem_of_lookup_1. rewrite newPhotos_lookup in Hi.
  destruct (fs !! i) as [file|] eqn:E; [|done].
  injection Hi as <-. eauto.
Qed.

(** While the ids of the batch stay in the range where doubles count
    without a gap, the two sums of [maxId + i + 1] are exact. *)
Lemma upload_id_exact (i n : nat) :
  - 2 ^ 53 <= m -> (i < n)%nat -> m + Z.of_nat n <= 2 ^ 53 ->
  js_add (js_add m (Z.of_nat i)) 1 = m + Z.of_nat i + 1.
Proof.
  intros Hm Hi Hn. rewrite (js_add_small m) by lia. apply js_add_small. lia.
Qed.

Lemma newPhotos_id (fs : list UploadedFile) (i : nat) (p : Photo.t) :
  - 2 ^ 53 <= m -> m + Z.of_nat (length fs) <= 2 ^ 53 ->
  newPhotos m clientId fs now !! i = Some p ->
  Photo.id p = m + Z.of_nat i + 1.
Proof.
  intros Hm Hn Hi. rewrite newPhotos_lookup in Hi.
  destruct (fs !! i) as [file|] eqn:E; [|done].
  apply lookup_lt_Some in E. injection Hi as <-. simpl.
  by apply (upload_id_exact i (length fs)).
Qed.

Lemma newPhotos_ids_NoDup (fs : list UploadedFile) :
  - 2 ^ 53 <= m -> m + Z.of_nat (length fs) <= 2 ^ 53 ->
  NoDup (map Photo.id (newPhotos m clientId fs now)).
Proof.
  intros Hm Hn. apply NoDup_alt. intros i j x.
  rewrite !list_lookup_fmap.
  destruct (newPhotos m clientId fs now !! i) as [p|] eqn:Hp; [|done].
  destruct (newPhotos m clientId fs now !! j) as [q|] eqn:Hq; [|done].
  simpl. intros [= <-] [= H].
  rewrite (newPhotos_id fs i p Hm Hn Hp), (newPhotos_id fs j q Hm Hn Hq) in H.
  lia.
Qed.

End Upload.

Lemma maxId_empty (d : Document) : photos d = [] -> maxId d = 0.
Proof. unfold maxId. by intros ->. Qed.

Lemma maxId_max (d : Document) :
  photos d <> [] ->
  In (maxId d) (map Photo.id (photos d)) /\
  forall x, In x (map Photo.id (photos d)) -> x <= maxId d.
Proof.
  intros Hne. unfold maxId. rewrite (proj2 (length_pos_nonempty _) Hne).
  assert (map Photo.id (photos d) <> []) by (by destruct (photos d)).
  split; [by apply Math_max_elem|apply Math_max_bound].
Qed.

Lemma maxId_bound (d : Document) (p : Photo.t) :
  p ∈ photos d -> Photo.id p <= maxId d.
Proof.
  intros Hp. destruct (maxId_max d) as [_ H].
  - intros E. rewrite E in Hp. by apply elem_of_nil in Hp.
  - apply H, in_map. by apply list_elem_of_In.
Qed.

Lemma maxId_within (d : Document) (b : Z) :
  0 <= b ->
  (forall p, p ∈ photos d -> - 2 ^ 53 <= Photo.id p <= b) ->
  - 2 ^ 53 <= maxId d <= b.
Proof.
  intros Hb Hw. destruct (decide (photos d = [])) as [E|E].
  - rewrite (maxId_empty d E). lia.
  - destruct (maxId_max d E) as [Hm _].
    apply in_map_iff in Hm as (p & <- & Hp).
    by apply list_elem_of_In, Hw in Hp.
Qed.

(** ** Distinct ids *)

Section Unique.

Lemma List_filter_sublist {A} (f : A -> bool) (l : list A) :
  List.filter f l `sublist_of` l.
Proof.
  induction l as [|x l IH]; simpl; [done|].
  destruct (f x); [by apply sublist_skip|by apply sublist_cons].
Qed.

Lemma NoDup_ids_sublist {A} (f : A -> Z) (l1 l2 : list A) :
  l1 `sublist_of` l2 -> NoDup (map f l2) -> NoDup (map f l1).
Proof.
  intros Hs Hnd. apply (sublist_NoDup _ _ Hnd). by apply fmap_sublist.
Qed.

Lemma ids_within_mono (b b' : Z) (d : Document) :
  b <= b' -> ids_within b d -> ids_within b' d.
Proof.
  intros Hb (H0 & Hc & Hp). split; [lia|].
  split; [intros c Hx; apply Hc in Hx|intros p Hx; apply Hp in Hx]; lia.
Qed.

(** A mutation adds at most the number of records it is for, with ids
    that follow the ones present. *)
Lemma mutation_within (d d' : Document) (n b : Z) :
  mutation d n d' -> ids_within b d -> b + n <= 2 ^ 53 ->
  0 <= n /\ ids_within (b + n) d'.
Proof.
  intros Hm (H0 & Hc & Hp) Hb.
  destruct Hm as [name email phone|i k|cid fs now|i|j Q HQ];
    (split; [lia|]); (split; [lia|]); simpl; rewrite ?Z.add_0_r.
  - split; [|intros p Hx; apply Hp in Hx; lia].
    destruct (newId_within d b) as [_ Hr]; [lia|done|].
    intros c [Hx|Hx]%elem_of_app; [apply Hc in Hx; lia|].
    apply list_elem_of_singleton in Hx. subst c. simpl. lia.
  - split.
    + intros c Hx. apply Hc.
      apply (elem_of_sublist _ _ _ Hx), sublist_delete.
    + intros p Hx. apply Hp. apply list_elem_of_In, filter_In in Hx as [Hx _].
      by apply list_elem_of_In.
  - split; [intros c Hx; apply Hc in Hx; lia|].
    pose proof (maxId_within d b H0 Hp) as Hmax.
    intros p [Hx|Hx]%elem_of_app; [apply Hp in Hx; lia|].
    apply list_elem_of_lookup_1 in Hx as [i Hi].
    rewrite (newPhotos_id (maxId d) cid now fs i p) by (done || lia).
    apply lookup_lt_Some in Hi. rewrite newPhotos_length in Hi. lia.
  - split; [done|].
    intros p Hx. apply Hp.
    apply (elem_of_sublist _ _ _ Hx), sublist_delete.
  - split; [done|].
    intros p [k Hk]%list_elem_of_lookup_1.
    destruct (decide (k = j)) as [->|Hne].
    + rewrite list_lookup_insert_eq in Hk by (by apply lookup_lt_Some in HQ).
      injection Hk as <-. rewrite flip_favorite_id.
      apply Hp. by apply list_elem_of_lookup_2 in HQ.
    + rewrite list_lookup_insert_ne in Hk by done.
      apply Hp. by apply list_elem_of_lookup_2 in Hk.
Qed.

(** Each mutation keeps ids distinct, as long as the new ids are in the
    range where doubles count without a gap. *)
Lemma mutation_unique (d d' : Document) (n b : Z) :
  mutation d n d' -> ids_within b d -> b + n <= 2 ^ 53 ->
  unique_ids d -> unique_ids d'.
Proof.
  intros Hm (H0 & Hwc & Hwp) Hb [Hc Hp].
  destruct Hm as [name email phone|i k|cid fs now|i|j Q HQ];
    split; simpl; try done.
  - rewrite map_app. apply NoDup_app. split; [done|].
    split; [|apply NoDup_singleton].
    intros x Hx [= ->]%list_elem_of_singleton.
    apply list_elem_of_fmap in Hx as (c & E & Hc').
    destruct (newId_within d b) as [Habove _]; [lia|done|].
    apply Habove in Hc'. simpl in E. lia.
  - by apply (NoDup_ids_sublist _ _ _ (sublist_delete _ _)).
  - by apply (NoDup_ids_sublist _ _ _ (List_filter_sublist _ _)).
  - pose proof (maxId_within d b H0 Hwp) as Hmax.
    rewrite map_app. apply NoDup_app. split; [done|].
    split; [|apply newPhotos_ids_NoDup; lia].
    intros x Hx Hx'.
    apply list_elem_of_fmap in Hx as (p & -> & Hp').
    apply list_elem_of_fmap in Hx' as (q & E & Hq).
    apply list_elem_of_lookup_1 in Hq as [i Hi].
    rewrite (newPhotos_id (maxId d) cid now fs i q) in E by (done || lia).
    apply maxId_bound in Hp'. lia.
  - by apply (NoDup_ids_sublist _ _ _ (sublist_delete _ _)).
  - change (NoDup (Photo.id <$> <[j := flip_favorite Q]> (photos d))).
    rewrite list_fmap_insert, list_insert_id; [done|].
    by rewrite list_lookup_fmap, HQ.
Qed.

(** A request leaves [db.json] alone or writes a mutation of the document
    it has loaded, which adds no more records than the request asks
    for. *)
Lemma handle_mutation (r : Request) (w : World) :
  dbfile (handle r w).2 = dbfile w \/
  exists d d', holds w d /\ mutation d (demand r) d' /\
               dbfile (handle r w).2 = Text (Json d').
Proof.
  destruct ((readDb w).1) as [d|e] eqn:Hd;
    [|left; by apply (handle_500 r w e)].
  change (holds w d) in Hd.
  destruct r as [|name email phone|id|cid files now|id|id]; simpl.
  - left. by rewrite (get_api_data_200 w d Hd).
  - destruct (truthy name) eqn:Hn.
    + right. exists d. eexists. split; [done|].
      rewrite (post_api_clients_201 w d Hd _ _ _ Hn). simpl.
      split; [apply client_created|done].
    + left. by rewrite post_api_clients_400.
  - destruct (findIndex (is_client id) (clients d)) as [i|] eqn:Hi.
    + right. destruct (delete_api_clients_200 w d Hd id i Hi)
        as (w1 & -> & Hw).
      exists d. eexists. split; [done|]. split; [|exact Hw].
      apply client_deleted.
    + left. by rewrite (delete_api_clients_404 w d Hd id Hi).
  - destruct (truthy (field cid)) eqn:Hc;
      [|left; rewrite post_api_photos_400; auto].
    destruct files as [[|f fs]|];
      try (left; rewrite post_api_photos_400; by auto).
    right. exists d. eexists. split; [done|].
    rewrite (post_api_photos_201 w d Hd cid (f :: fs) now Hc); [|done].
    split; [apply (photos_uploaded d cid (f :: fs) now)|done].
  - destruct (findIndex (is_photo id) (photos d)) as [i|] eqn:Hi.
    + right. destruct (delete_api_photos_200 w d Hd id i Hi)
        as (w1 & -> & Hw).
      exists d. eexists. split; [done|]. split; [|exact Hw].
      apply photo_deleted.
    + left. by rewrite (delete_api_photos_404 w d Hd id Hi).
  - destruct (find (is_photo id) (photos d)) as [[j Q]|] eqn:Hi.
    + right. exists d. eexists. split; [done|].
      rewrite (put_api_photos_favorite_200 w d Hd id j Q Hi). simpl.
      split; [|done]. apply favorite_toggled.
      apply find_Some in Hi as (l1 & l2 & -> & <- & _).
      by apply list_lookup_middle.
    + left. by rewrite (put_api_photos_favorite_404 w d Hd id Hi).
Qed.

Lemma demand_nonneg (r : Request) : 0 <= demand r.
Proof. destruct r; simpl; lia. Qed.

Lemma budget_nonneg (rs : list Request) : 0 <= budget rs.
Proof.
  induction rs as [|r rs IH]; simpl; [done|].
  pose proof (demand_nonneg r). lia.
Qed.

Lemma store_unique_dbfile (w1 w2 : World) :
  dbfile w1 = dbfile w2 -> store_unique w2 -> store_unique w1.
Proof.
  intros E H d Hd. apply H. unfold holds in *.
  by rewrite <- (readDb_dbfile w1 w2 E).
Qed.

Lemma store_within_dbfile (b : Z) (w1 w2 : World) :
  dbfile w1 = dbfile w2 -> store_within b w2 -> store_within b w1.
Proof.
  intros E H d Hd. apply H. unfold holds in *.
  by rewrite <- (readDb_dbfile w1 w2 E).
Qed.

(** A request raises the bound on the ids by no more than it asks for. *)
Lemma handle_within (r : Request) (w : World) (b : Z) :
  store_within b w -> b + demand r <= 2 ^ 53 ->
  store_within (b + demand r) (handle r w).2.
Proof.
  intros Hw Hb. pose proof (demand_nonneg r) as Hn.
  destruct (handle_mutation r w) as [E|(d & d' & Hd & Hm & E)].
  - apply (store_within_dbfile _ _ w E). intros d Hd.
    apply (ids_within_mono b); [lia|by apply Hw].
  - intros d2 Hd2. unfold holds in Hd2.
    rewrite (readDb_json _ d' E) in Hd2. injection Hd2 as <-.
    by apply (mutation_within d d' _ b Hm (Hw d Hd)).
Qed.

Lemma handle_unique (r : Request) (w : World) (b : Z) :
  store_within b w -> b + demand r <= 2 ^ 53 ->
  store_unique w -> store_unique (handle r w).2.
Proof.
  intros Hw Hb Hu.
  destruct (handle_mutation r w) as [E|(d & d' & Hd & Hm & E)].
  - by apply (store_unique_dbfile _ w).
  - intros d2 Hd2. unfold holds in Hd2.
    rewrite (readDb_json _ d' E) in Hd2. injection Hd2 as <-.
    apply (mutation_unique d d' _ b Hm (Hw d Hd) Hb). by apply Hu.
Qed.

End Unique.

(** C5, as the code has it.  Let the ids of the clients and the ids of the
    photos of the stored document be pairwise distinct, and let all of
    them lie between [- 2 ^ 53] and a bound [b].  Then after any sequence
    of requests served one after the other (creating or deleting a client,
    uploading photos, deleting a photo, toggling a favorite, or listing)
    that asks for no more than [2 ^ 53 - b] new records in all, one per
    client to create and one per file to upload, the ids are still
    pairwise distinct, and they lie between [- 2 ^ 53] and [b] plus the
    number of records asked for. *)
Theorem unique_ids_preserved (rs : list Request) (w : World) (b : Z) :
  store_unique w ->
  store_within b w ->
  b + budget rs <= 2 ^ 53 ->
  store_unique (serve rs w).2 /\
  store_within (b + budget rs) (serve rs w).2.
Proof.
  revert w b. induction rs as [|r rs IH]; intros w b Hu Hw Hb; simpl.
  { split; [done|]. by rewrite Z.add_0_r. }
  simpl in Hb. pose proof (budget_nonneg rs) as Hn.
  pose proof (handle_unique r w b Hw ltac:(lia) Hu) as H1.
  pose proof (handle_within r w b Hw ltac:(lia)) as H2.
  destruct (handle r w) as [resp w1]. simpl in H1, H2.
  destruct (IH w1 (b + demand r) H1 H2 ltac:(lia)) as [H3 H4].
  destruct (serve rs w1). simpl in *. split; [done|].
  by rewrite Z.add_assoc.
Qed.

Lemma unique_ids_preserved_witness :
  store_unique
    (serve [PostClients (VStr "Carol") VUndefined VUndefined;
            PostPhotos (Some "3") (Some [file1; file2]) noon;
            DeleteClients "1";
            PutFavorite "2";
            DeletePhotos "4"] gallery).2.
Proof.
  apply (unique_ids_preserved _ gallery 3).
  - intros d Hd. injection Hd as <-. split; compute_done.
  - intros d Hd. injection Hd as <-. split; [done|].
    split; intros x Hx;
      repeat (apply elem_of_cons in Hx as [->|Hx]; [by vm_compute|]);
      by apply elem_of_nil in Hx.
  - by vm_compute.
Defined.

(** C5 as the specification states it, for every document, fails where
    doubles stop counting: the ids of [brim_db] are pairwise distinct, its
    only client having the id [2 ^ 53], and the client created next is
    given [2 ^ 53] again. *)
Lemma unique_ids_preserved_counterexample :
  store_unique brim /\
  ~ store_unique
      (serve [PostClients (VStr "Amy") VUndefined VUndefined] brim).2.
Proof.
  split.
  - intros d Hd. injection Hd as <-. split; compute_done.
  - intros H. destruct (H _ eq_refl) as [Hc _].
    apply NoDup_cons in Hc as [Hn _]. apply Hn. by left.
Qed.

(** ** The records of an upload *)

(** C4, as the code has it.  An upload with a non-empty clientId field
    and at least one file answers 201 with one new photo per file, in the
    order of the files, and the stored document is the loaded one with
    these photos added at the end of [photos].  The [i]-th of them (from 0)
    has the id [(base + i) + 1] as doubles add, where [base] is the largest
    photo id of the loaded document, or 0 without photos; this is
    [base + i + 1] itself as long as [base] is at least [- 2 ^ 53] and
    [base] plus the number of files at most [2 ^ 53].  Its [favorite] is
    [false]; its [name], [url] and [size] are those of its file.  Its
    [clientId] is what [parseInt] reads in the field, as [JSON.stringify]
    writes it: the integer [z] when the field is the decimal numeral of
    [z] and [z] is at most [2 ^ 53] in magnitude, and null when
    [parseInt] reads no number in the field. *)
Theorem post_api_photos_batch
    (w : World) (d : Document) (s : string) (fs : list UploadedFile)
    (now : nat -> string) :
  holds w d ->
  s <> "" ->
  fs <> [] ->
  exists news,
    post_api_photos (Some s) (Some fs) now w =
    (mkResponse 201 (JsonPhotos news),
     mkWorld (Text (Json (mkDocument (clients d) (photos d ++ news))))
             (uploads w ++ map filename fs) (console w)) /\
    length news = length fs /\
    (forall i file,
       fs !! i = Some file ->
       news !! i =
       Some (Photo.mk (js_add (js_add (maxId d) (Z.of_nat i)) 1)
                      (JSON_number (parseInt s))
                      (originalname file)
                      ("/uploads/" ++ filename file)
                      (file_size file) (now i) (VBool false))) /\
    (- 2 ^ 53 <= maxId d ->
     maxId d + Z.of_nat (length fs) <= 2 ^ 53 ->
     forall i p, news !! i = Some p ->
                 Photo.id p = maxId d + Z.of_nat i + 1) /\
    (photos d = [] -> maxId d = 0) /\
    (photos d <> [] ->
     In (maxId d) (map Photo.id (photos d)) /\
     forall x, In x (map Photo.id (photos d)) -> x <= maxId d) /\
    (forall p, p ∈ news ->
       Photo.favorite p = VBool false /\
       Photo.clientId p = JSON_number (parseInt s) /\
       (forall z, Z.abs z <= 2 ^ 53 -> s = decimal z ->
                  Photo.clientId p = VNum z) /\
       (parseInt s = NaN -> Photo.clientId p = VNull)).
Proof.
  intros Hd Hs Hfs. exists (newPhotos (maxId d) (Some s) fs now).
  split.
  { apply (post_api_photos_201 w d Hd (Some s) fs now); [|done].
    simpl. by destruct s. }
  split; [apply newPhotos_length|].
  split; [intros i file Hi; by rewrite newPhotos_lookup, Hi|].
  split; [intros Hlo Hhi i p; by apply newPhotos_id|].
  split; [apply maxId_empty|]. split; [apply maxId_max|].
  intros p (i & file & _ & ->)%newPhotos_elem. simpl.
  split; [done|]. split; [done|]. split.
  - intros z Hz ->. by rewrite parseInt_decimal.
  - by intros ->.
Qed.

Lemma post_api_photos_batch_witness :
  (exists news,
     (post_api_photos (Some "2") (Some [file1; file2; file3]) noon fresh).1 =
     mkResponse 201 (JsonPhotos news) /\
     Photo.id <$> news !! 0%nat = Some 1 /\
     Photo.id <$> news !! 1%nat = Some 2 /\
     Photo.id <$> news !! 2%nat = Some 3 /\
     forall p, p ∈ news ->
               Photo.favorite p = VBool false /\ Photo.clientId p = VNum 2) /\
  (exists news,
     (post_api_photos (Some "12abc") (Some [file1]) noon gallery).1 =
     mkResponse 201 (JsonPhotos news) /\
     forall p, p ∈ news -> Photo.id p = 4 /\ Photo.clientId p = VNum 12).
Proof.
  split.
  - destruct (post_api_photos_batch fresh empty_db "2" [file1; file2; file3]
                noon eq_refl)
      as (news & Hr & _ & Hi & Hx & _ & _ & Hp); [done|done|].
    exists news. rewrite Hr. split; [done|].
    assert (forall i p, news !! i = Some p -> Photo.id p = Z.of_nat i + 1)
      as Hid by (apply Hx; by vm_compute).
    rewrite (Hi 0%nat file1 eq_refl), (Hi 1%nat file2 eq_refl),
      (Hi 2%nat file3 eq_refl).
    repeat split; try done.
    + by destruct (Hp p H) as (? & ? & _).
    + destruct (Hp p H) as (_ & _ & Hz & _). by apply (Hz 2).
  - destruct (post_api_photos_batch gallery gallery_db "12abc" [file1]
                noon eq_refl)
      as (news & Hr & Hl & _ & Hx & _ & _ & Hp); [done|done|].
    exists news. rewrite Hr. split; [done|].
    intros p Hp'. destruct (Hp p Hp') as (_ & Hc & _). split; [|exact Hc].
    apply list_elem_of_lookup_1 in Hp' as [i Hi].
    pose proof (Hx ltac:(by vm_compute) ltac:(by vm_compute) i p Hi) as E.
    destruct i as [|i]; [exact E|].
    apply lookup_lt_Some in Hi. rewrite Hl in Hi. simpl in Hi. lia.
Defined.

(** C4 as stated fails in two ways.  With the clientId given as [abc]
    the upload is accepted, and the photo it creates does not carry the
    clientId that was given; it carries no number at all.  And where
    doubles stop counting the ids are not [base + 1], ...: the only photo
    of [brim_db] has the id [2 ^ 53], and the photo uploaded next is given
    [2 ^ 53] again. *)
Lemma post_api_photos_clientId_counterexample :
  (exists p,
     (post_api_photos (Some "abc") (Some [file1]) noon fresh).1 =
     mkResponse 201 (JsonPhotos [p]) /\
     Photo.clientId p = VNull /\
     ~ given_clientId "abc" (Photo.clientId p)) /\
  (exists p,
     (post_api_photos (Some "1") (Some [file1]) noon brim).1 =
     mkResponse 201 (JsonPhotos [p]) /\
     maxId brim_db = 9007199254740992 /\
     Photo.id p = 9007199254740992 /\
     Photo.id p <> maxId brim_db + 1).
Proof.
  split.
  - eexists. split; [reflexivity|]. split; [reflexivity|].
    simpl. intros [H|(z & H & _)]; discriminate.
  - eexists. split; [reflexivity|]. by vm_compute.
Qed.

(** ** Photos without a numeric clientId *)

Section Orphans.

(** POST /api/photos answers 400 exactly when the clientId field is
    missing or empty, or no file is attached. *)
Lemma post_api_photos_400_iff (clientId : option string)
    (files : option (list UploadedFile)) (now : nat -> string) (w : World) :
  status (post_api_photos clientId files now w).1 = 400 <->
  truthy (field clientId) = false \/ default [] files = [].
Proof.
  split; [|intros H; by rewrite post_api_photos_400].
  intros H.
  apply (status_rejected (PostPhotos clientId files now) w). by left.
Qed.

(** A photo whose clientId is no number survives every delete of a
    client. *)
Lemma delete_api_clients_keeps (id : string) (w : World) (d : Document)
    (p : Photo.t) :
  dbfile w = Text (Json d) ->
  p ∈ photos d ->
  (forall n, strict_eq (Photo.clientId p) n = false) ->
  exists d1, dbfile (delete_api_clients id w).2 = Text (Json d1) /\
             p ∈ photos d1.
Proof.
  intros Hw Hp Hn.
  assert (Hd : holds w d) by (unfold holds; by rewrite (readDb_json w d Hw)).
  destruct (findIndex (is_client id) (clients d)) as [i|] eqn:Hi.
  - destruct (delete_api_clients_200 w d Hd id i Hi) as (w1 & -> & E).
    eexists. split; [exact E|]. simpl.
    apply list_elem_of_In, filter_In. split; [by apply list_elem_of_In|].
    by rewrite Hn.
  - rewrite (delete_api_clients_404 w d Hd id Hi). by exists d.
Qed.

Lemma serve_deletes_keep (ids : list string) :
  forall (w : World) (d : Document) (p : Photo.t),
    dbfile w = Text (Json d) ->
    p ∈ photos d ->
    (forall n, strict_eq (Photo.clientId p) n = false) ->
    exists d1, dbfile (serve (map DeleteClients ids) w).2 = Text (Json d1) /\
               p ∈ photos d1.
Proof.
  induction ids as [|id ids IH]; intros w d p Hw Hp Hn; simpl; [by exists d|].
  destruct (delete_api_clients_keeps id w d p Hw Hp Hn) as (d1 & Hw1 & Hp1).
  destruct (delete_api_clients id w) as [r w1]. simpl in Hw1.
  destruct (IH w1 d1 p Hw1 Hp1 Hn) as (d2 & Hw2 & Hp2).
  destruct (serve (map DeleteClients ids) w1) as [rs w2]. by exists d2.
Qed.

End Orphans.

(** C10. The upload route refuses a request exactly when the clientId
    field is missing or empty or no file is attached; it does not look at
    what the field says.  With a non-empty field in which [parseInt] reads
    no integer the upload is accepted, and every photo it creates and
    stores has for [clientId] what NaN becomes in JSON, which is no number:
    it is strictly equal to no number, so to no id of a client, and the
    photo is still in the stored document after any sequence of deletes of
    clients, whatever their ids. *)
Theorem post_api_photos_NaN_clientId
    (w : World) (d : Document) (s : string) (fs : list UploadedFile)
    (now : nat -> string) :
  holds w d ->
  s <> "" ->
  parseInt s = NaN ->
  fs <> [] ->
  (forall clientId files now' w',
     status (post_api_photos clientId files now' w').1 = 400 <->
     truthy (field clientId) = false \/ default [] files = []) /\
  exists news w1,
    post_api_photos (Some s) (Some fs) now w =
    (mkResponse 201 (JsonPhotos news), w1) /\
    dbfile w1 = Text (Json (mkDocument (clients d) (photos d ++ news))) /\
    length news = length fs /\
    forall p, p ∈ news ->
      Photo.clientId p = JSON_number NaN /\
      (forall n, strict_eq (Photo.clientId p) n = false) /\
      (forall c : Client.t, Photo.clientId p <> VNum (Client.id c)) /\
      (forall ids : list string,
         exists d2,
           dbfile (serve (map DeleteClients ids) w1).2 = Text (Json d2) /\
           p ∈ photos d2).
Proof.
  intros Hd Hs Hnan Hfs. split; [apply post_api_photos_400_iff|].
  assert (Hc : truthy (field (Some s)) = true) by (simpl; by destruct s).
  pose proof (post_api_photos_201 w d Hd (Some s) fs now Hc Hfs) as Hr.
  eexists (newPhotos (maxId d) (Some s) fs now), _.
  split; [exact Hr|]. split; [done|]. split; [apply newPhotos_length|].
  intros p Hin.
  assert (Hnull : Photo.clientId p = VNull).
  { apply newPhotos_elem in Hin as (i & file & _ & ->). simpl.
    by rewrite Hnan. }
  assert (Hno : forall n, strict_eq (Photo.clientId p) n = false)
    by (intros n; by rewrite Hnull).
  split; [by rewrite Hnull|]. split; [done|].
  split; [intros c E; by rewrite Hnull in E|].
  intros ids. eapply serve_deletes_keep; [done| |done].
  simpl. apply elem_of_app. by right.
Qed.

Lemma post_api_photos_NaN_clientId_witness :
  exists news w1,
    post_api_photos (Some "abc") (Some [file1]) noon gallery =
    (mkResponse 201 (JsonPhotos news), w1) /\
    length news = 1%nat /\
    forall p, p ∈ news ->
      Photo.clientId p = VNull /\
      exists d2,
        dbfile (serve [DeleteClients "1"; DeleteClients "2";
                       DeleteClients "abc"] w1).2 = Text (Json d2) /\
        p ∈ photos d2.
Proof.
  destruct (post_api_photos_NaN_clientId gallery gallery_db "abc" [file1]
              noon eq_refl)
    as (_ & news & w1 & Hr & _ & Hlen & Hp); [done|reflexivity|done|].
  exists news, w1. split; [exact Hr|]. split; [exact Hlen|].
  intros p Hin. destruct (Hp p Hin) as (Hc & _ & _ & Hk).
  split; [exact Hc|]. exact (Hk ["1"; "2"; "abc"]).
Defined.

(** ** The scenarios of the specification, run on the model *)

Section Scenarios.

(** Alice gets id 1, Bob id 2; after client 1 is deleted the listing
    shows Bob alone. *)
Example scenario_clients :
  (serve [PostClients (VStr "Alice") VUndefined VUndefined;
          PostClients (VStr "Bob") VUndefined VUndefined;
          DeleteClients "1";
          GetData] fresh).1 =
  [mkResponse 201
     (JsonClient (Client.mk 1 (VStr "Alice") VUndefined VUndefined));
   mkResponse 201
     (JsonClient (Client.mk 2 (VStr "Bob") VUndefined VUndefined));
   mkResponse 200 (JsonMessage "Client and associated photos deleted");
   mkResponse 200
     (JsonDocument
        (mkDocument [Client.mk 2 (VStr "Bob") VUndefined VUndefined] []))].
Proof. reflexivity. Qed.

(** Three files uploaded for client 2 into an empty store get the ids 1,
    2 and 3. *)
Example scenario_upload :
  body (post_api_photos (Some "2") (Some [file1; file2; file3]) noon fresh).1 =
  JsonPhotos
    [Photo.mk 1 (VNum 2) "dawn.jpg" "/uploads/photos-7.jpg" 1000 (noon 0)
              (VBool false);
     Photo.mk 2 (VNum 2) "dusk.jpg" "/uploads/photos-8.jpg" 2000 (noon 1)
              (VBool false);
     Photo.mk 3 (VNum 2) "noon.jpg" "/uploads/photos-9.jpg" 3000 (noon 2)
              (VBool false)].
Proof. reflexivity. Qed.

(** Deleting a photo whose file is already gone still answers 200 and
    removes the record; the failure to unlink is logged. *)
Example scenario_missing_blob :
  delete_api_photos "3" gallery =
  (mkResponse 200 (JsonMessage "Photo deleted"),
   mkWorld (Text (Json (mkDocument [alice; bob] [photo1; photo2])))
           ["photos-1.jpg"; "photos-2.jpg"]
           [("Failed to delete photo file: /uploads/photos-3.jpg",
             SystemError "ENOENT")]).
Proof. reflexivity. Qed.

(** Deleting a client removes the files of its photos that are there. *)
Example scenario_cascade_files :
  uploads (delete_api_clients "1" gallery).2 = ["photos-2.jpg"] /\
  console (delete_api_clients "1" gallery).2 =
  [("Failed to delete photo file: /uploads/photos-3.jpg",
    SystemError "ENOENT")].
Proof. split; reflexivity. Qed.

(** What [parseInt] makes of a few paths and fields. *)
Example scenario_parseInt :
  map parseInt ["12"; " 7"; "12abc"; "-5"; "0x1F"; "1.5"; "abc"; ""; " "] =
  [Num 12; Num 7; Num 12; Num (-5); Num 31; Num 1; NaN; NaN; NaN].
Proof. reflexivity. Qed.

(** Where doubles stop counting: [2 ^ 53 + 1] is read and computed as
    [2 ^ 53], [2 ^ 53 + 3] is read as [2 ^ 53 + 4], and a numeral of 310
    digits is read as [Infinity], which JSON writes as null. *)
Example scenario_doubles :
  parseInt "9007199254740993" = Num 9007199254740992 /\
  parseInt "9007199254740995" = Num 9007199254740996 /\
  parseInt "-9007199254740993" = Num (-9007199254740992) /\
  js_add 9007199254740992 1 = 9007199254740992 /\
  js_add 9007199254740991 1 = 9007199254740992 /\
  parseInt (String "1" (string_of_list_ascii (replicate 309 "0"%char))) =
  Infinity false /\
  JSON_number (Infinity false) = VNull.
Proof. repeat split; by vm_compute. Qed.

End Scenarios.

(** * Further properties of the server *)

(** ** The files of deleted photos *)

Section Blobs.

Lemma has_file_elem (f : string) (dir : list string) :
  has_file f dir = true <-> f ∈ dir.
Proof.
  unfold has_file. rewrite existsb_exists. split.
  - intros (x & Hx & E). apply String.eqb_eq in E. subst.
    by apply list_elem_of_In.
  - intros H. exists f.
    split; [by apply list_elem_of_In|apply String.eqb_refl].
Qed.

Lemma has_file_false (f : string) (dir : list string) :
  has_file f dir = false <-> f ∉ dir.
Proof.
  rewrite <- has_file_elem.
  destruct (has_file f dir); split; intros; done.
Qed.

Lemma without_elem (names dir : list string) (f : string) :
  f ∈ without names dir <-> f ∈ dir /\ f ∉ names.
Proof.
  unfold without. rewrite list_elem_of_In, filter_In, <- list_elem_of_In.
  rewrite negb_true_iff, has_file_false. tauto.
Qed.

Lemma without_nil (dir : list string) : without [] dir = dir.
Proof. unfold without. induction dir; simpl; [done|]. by f_equal. Qed.

(** Removing one file, then others, is removing them all. *)
Lemma without_cons (n : string) (names dir : list string) :
  without names (List.filter (fun f => negb (String.eqb n f)) dir) =
  without (n :: names) dir.
Proof.
  unfold without. induction dir as [|f dir IH]; simpl; [done|].
  rewrite (String.eqb_sym f n).
  destruct (String.eqb n f); simpl; [done|].
  destruct (has_file f names); simpl; [done|]. by f_equal.
Qed.

Lemma without_sublist (names dir : list string) :
  without names dir `sublist_of` dir.
Proof. apply List_filter_sublist. Qed.

(** With the file not there [unlink] fails and the directory is as it
    was, which is also what removing the name from it gives. *)
Lemma filter_absent (n : string) (dir : list string) :
  has_file n dir = false ->
  List.filter (fun f => negb (String.eqb n f)) dir = dir.
Proof.
  induction dir as [|f dir IH]; simpl; [done|].
  destruct (String.eqb n f); simpl; [done|]. intros H. f_equal. auto.
Qed.

(** What removing the file of one photo does to the world. *)
Lemma unlink_photo_eq (p : Photo.t) (w : World) :
  unlink_photo p w =
  (Ok tt,
   mkWorld (dbfile w)
           (without [basename (Photo.url p)] (uploads w))
           (if has_file (basename (Photo.url p)) (uploads w)
            then console w
            else console w ++
                 [(("Failed to delete photo file: " ++ Photo.url p)%string,
                   SystemError "ENOENT")])).
Proof.
  unfold unlink_photo, try_catch, fs_unlink, console_error.
  rewrite <- without_cons, without_nil.
  destruct (has_file _ _) eqn:E; simpl; [done|].
  by rewrite (filter_absent _ _ E).
Qed.

(** What the loop over the photos of a deleted client does to the world. *)
Lemma for_of_unlink_eq (ps : list Photo.t) (w : World) :
  exists log,
    for_of ps unlink_photo w =
    (Ok tt,
     mkWorld (dbfile w) (without (blobs ps) (uploads w)) (console w ++ log)).
Proof.
  revert w. induction ps as [|p ps IH]; intros w; simpl.
  - exists []. rewrite without_nil, app_nil_r. by destruct w.
  - unfold bind. rewrite unlink_photo_eq.
    destruct (IH (mkWorld (dbfile w)
                    (without [basename (Photo.url p)] (uploads w))
                    (if has_file (basename (Photo.url p)) (uploads w)
                     then console w
                     else console w ++
                          [(("Failed to delete photo file: " ++ Photo.url p)%string,
                            SystemError "ENOENT")])))
      as (log & ->). simpl.
    rewrite <- (without_cons (basename (Photo.url p)) (blobs ps)).
    rewrite <- (without_cons _ [] (uploads w)), without_nil.
    destruct (has_file _ _); [by exists log|].
    eexists. by rewrite <- app_assoc.
Qed.

(** With distinct ids, the photo that carries the id of the path is the
    one [findIndex] stops at. *)
Lemma findIndex_photo (d : Document) (id : string) (i : nat) (P : Photo.t) :
  NoDup (map Photo.id (photos d)) ->
  photos d !! i = Some P ->
  parseInt id = Num (Photo.id P) ->
  findIndex (is_photo id) (photos d) = Some i.
Proof.
  intros Hnd Hi Hid.
  destruct (find_photo d id i P Hi Hid) as (j & Q & Hf & _ & _ & _ & Hu).
  destruct (Hu Hnd) as [-> ->]. rewrite find_findIndex in Hf.
  destruct (findIndex (is_photo id) (photos d)) as [k|]; [|done].
  destruct (photos d !! k); [|done]. by injection Hf as ->.
Qed.

Lemma delete_not_elem {A} (l : list A) (i : nat) (x : A) :
  NoDup l -> l !! i = Some x -> x ∉ delete i l.
Proof.
  intros Hnd Hi Hx. apply list_elem_of_lookup_1 in Hx as [j Hj].
  destruct (decide (j < i)%nat).
  - rewrite list_lookup_delete_lt in Hj by done.
    assert (j = i) by (by apply (NoDup_lookup l j i x)). lia.
  - rewrite list_lookup_delete_ge in Hj by lia.
    assert (S j = i) by (by apply (NoDup_lookup l (S j) i x)). lia.
Qed.

End Blobs.

(** X1. In a document whose photo ids are pairwise distinct, deleting the
    photo [P] by its id answers 200 whether or not its file is still
    there.  The stored document is the loaded one with [P] taken out of
    [photos], the clients and the other photos in place; the uploads
    directory loses the file named by the last component of the url of
    [P], and nothing else; the log gets one line when that file was not
    there, and none otherwise.  The same delete asked again answers 404
    and changes nothing. *)
Theorem delete_api_photos_removes
    (w : World) (d : Document) (id : string) (i : nat) (P : Photo.t) :
  holds w d ->
  NoDup (map Photo.id (photos d)) ->
  photos d !! i = Some P ->
  parseInt id = Num (Photo.id P) ->
  let w1 :=
    mkWorld
      (Text (Json (mkDocument (clients d) (delete i (photos d)))))
      (without [basename (Photo.url P)] (uploads w))
      (if has_file (basename (Photo.url P)) (uploads w)
       then console w
       else console w ++
            [(("Failed to delete photo file: " ++ Photo.url P)%string,
              SystemError "ENOENT")]) in
  delete_api_photos id w =
  (mkResponse 200 (JsonMessage "Photo deleted"), w1) /\
  (P ∉ delete i (photos d)) /\
  (forall f, f ∈ uploads w1 <->
             f ∈ uploads w /\ f <> basename (Photo.url P)) /\
  delete_api_photos id w1 =
  (mkResponse 404 (JsonMessage "Photo not found"), w1).
Proof.
  intros Hd Hnd Hi Hid w1.
  pose proof (findIndex_photo d id i P Hnd Hi Hid) as Hf.
  assert (HP : P ∉ delete i (photos d)).
  { apply delete_not_elem; [|done]. by apply NoDup_fmap_1 in Hnd. }
  assert (H1 : delete_api_photos id w =
               (mkResponse 200 (JsonMessage "Photo deleted"), w1)).
  { unfold delete_api_photos, or_500, bind.
    rewrite (readDb_eq w), Hd. fold (is_photo id). rewrite Hf, Hi.
    by rewrite unlink_photo_eq. }
  split; [done|]. split; [done|]. split.
  - intros f. simpl. rewrite without_elem, list_elem_of_singleton. tauto.
  - apply (delete_api_photos_404 w1 (mkDocument (clients d)
                                                (delete i (photos d)))).
    + unfold holds. by rewrite (readDb_json w1 _ eq_refl).
    + apply no_photo_index_iff. simpl. intros p Hp E.
      assert (Photo.id p = Photo.id P) by congruence.
      apply HP. apply list_elem_of_lookup_1 in Hp as [j Hj].
      assert (Hj' : photos d !! (if decide (j < i)%nat then j else S j)
                    = Some p).
      { case_decide; [by rewrite list_lookup_delete_lt in Hj|
                      by rewrite list_lookup_delete_ge in Hj by lia]. }
      assert ((if decide (j < i)%nat then j else S j) = i).
      { apply (NoDup_lookup (map Photo.id (photos d)) _ i (Photo.id P));
          [done| |by rewrite list_lookup_fmap, Hi].
        rewrite list_lookup_fmap, Hj'. simpl. congruence. }
      case_decide; lia.
Qed.

Lemma delete_api_photos_removes_witness :
  delete_api_photos "1" gallery =
  (mkResponse 200 (JsonMessage "Photo deleted"),
   mkWorld (Text (Json (mkDocument [alice; bob] [photo2; photo3])))
           ["photos-2.jpg"] []).
Proof.
  destruct (delete_api_photos_removes gallery gallery_db "1" 0 photo1)
    as (H & _); [reflexivity|compute_done|reflexivity|reflexivity|].
  rewrite H. reflexivity.
Defined.

Section CascadeFiles.

(** The photos the route collects for the client of the path. *)
Lemma filter_this_client (z : Z) (ps : list Photo.t) :
  List.filter (fun p => strict_eq (Photo.clientId p) (Num z)) ps =
  filter (fun p => Photo.clientId p = VNum z) ps.
Proof.
  induction ps as [|p ps IH]; [done|]. simpl. rewrite filter_cons, IH.
  destruct (strict_eq (Photo.clientId p) (Num z)) eqn:E; simpl.
  - apply strict_eq_true in E. by rewrite decide_True.
  - rewrite decide_False; [done|]. intros H.
    apply strict_eq_true in H. congruence.
Qed.

(** A client that carries the id of the path makes [findIndex] succeed. *)
Lemma findIndex_some_client (d : Document) (id : string) (C : Client.t) :
  C ∈ clients d -> parseInt id = Num (Client.id C) ->
  exists i, findIndex (is_client id) (clients d) = Some i.
Proof.
  intros HC Hid. destruct (findIndex (is_client id) (clients d)) eqn:E;
    [by eexists|].
  pose proof (proj1 (no_client_iff id d) E C HC). done.
Qed.

(** The world after a delete of a client that is found. *)
Lemma delete_api_clients_world (w : World) (d : Document) (id : string)
    (i : nat) :
  holds w d ->
  findIndex (is_client id) (clients d) = Some i ->
  exists log,
    delete_api_clients id w =
    (mkResponse 200 (JsonMessage "Client and associated photos deleted"),
     mkWorld
       (Text (Json (mkDocument
                      (delete i (clients d))
                      (List.filter
                         (fun p => negb (strict_eq (Photo.clientId p)
                                                   (parseInt id)))
                         (photos d)))))
       (without
          (blobs (List.filter
                    (fun p => strict_eq (Photo.clientId p) (parseInt id))
                    (photos d)))
          (uploads w))
       (console w ++ log)).
Proof.
  intros Hd Hi. unfold delete_api_clients, or_500, bind.
  rewrite (readDb_eq w), Hd. fold (is_client id). rewrite Hi. simpl.
  match goal with |- context [for_of ?ps unlink_photo w] =>
    destruct (for_of_unlink_eq ps w) as (log & ->) end.
  by exists log.
Qed.

End CascadeFiles.

(** X2. Deleting a client that is found removes from the uploads
    directory the files named by the last component of the url of each
    photo of that client, and no other file: what stays is what was there,
    in order, but for these names.  Files that are already gone do not
    stop the delete; each of them only adds lines at the end of the log. *)
Theorem delete_api_clients_files
    (w : World) (d : Document) (id : string) (C : Client.t) :
  holds w d ->
  C ∈ clients d ->
  parseInt id = Num (Client.id C) ->
  let gone :=
    filter (fun p => Photo.clientId p = VNum (Client.id C)) (photos d) in
  status (delete_api_clients id w).1 = 200 /\
  uploads (delete_api_clients id w).2 = without (blobs gone) (uploads w) /\
  (forall f, f ∈ uploads (delete_api_clients id w).2 <->
             f ∈ uploads w /\
             forall p, p ∈ gone -> f <> basename (Photo.url p)) /\
  console w `prefix_of` console (delete_api_clients id w).2.
Proof.
  intros Hd HC Hid gone.
  destruct (findIndex_some_client d id C HC Hid) as [i Hi].
  destruct (delete_api_clients_world w d id i Hd Hi) as (log & ->). simpl.
  rewrite Hid, filter_this_client. fold gone.
  split; [done|]. split; [done|]. split; [|by apply prefix_app_r].
  intros f. rewrite without_elem. unfold blobs. split.
  - intros [Hf Hn]. split; [done|]. intros p Hp ->. apply Hn.
    apply list_elem_of_fmap. eauto.
  - intros [Hf Hn]. split; [done|].
    intros (p & -> & Hp)%list_elem_of_fmap. by apply (Hn p).
Qed.

Lemma delete_api_clients_files_witness :
  uploads (delete_api_clients "1" gallery).2 = ["photos-2.jpg"] /\
  console gallery `prefix_of` console (delete_api_clients "1" gallery).2.
Proof.
  destruct (delete_api_clients_files gallery gallery_db "1" alice)
    as (_ & H & _ & Hl); [reflexivity|left|reflexivity|].
  split; [by rewrite H|exact Hl].
Defined.

(** ** What a request can answer *)

Section Outcome.

Lemma handle_loadable (r : Request) (w : World) (d : Document) :
  holds w d -> ~ rejected r w -> status (handle r w).1 = success r.
Proof.
  intros Hd Hn.
  destruct r as [|name email phone|id|cid files now|id|id]; simpl in *.
  - by rewrite (get_api_data_200 w d Hd).
  - destruct (truthy name) eqn:E; [|done].
    by rewrite (post_api_clients_201 w d Hd _ _ _ E).
  - destruct (findIndex (is_client id) (clients d)) as [i|] eqn:Hi.
    + by destruct (delete_api_clients_200 w d Hd id i Hi) as (w1 & -> & _).
    + destruct Hn. exists d. split; [done|]. by apply no_client_iff.
  - destruct (truthy (field cid)) eqn:Hc; [|tauto].
    destruct files as [[|f fs]|]; simpl in Hn; try tauto.
    by rewrite (post_api_photos_201 w d Hd cid (f :: fs) now Hc).
  - destruct (findIndex (is_photo id) (photos d)) as [i|] eqn:Hi.
    + by destruct (delete_api_photos_200 w d Hd id i Hi) as (w1 & -> & _).
    + destruct Hn. exists d. split; [done|]. by apply no_photo_index_iff.
  - destruct (find (is_photo id) (photos d)) as [[i p]|] eqn:Hi.
    + by rewrite (put_api_photos_favorite_200 w d Hd id i p Hi).
    + destruct Hn. exists d. split; [done|]. by apply no_photo_iff.
Qed.

Lemma handle_unloadable (r : Request) (w : World) (e : error) :
  (readDb w).1 = Throw e -> ~ rejected r w ->
  (handle r w).1 = mkResponse 500 (JsonError (failure_message r) e).
Proof.
  intros He Hn.
  assert (Hr : readDb w = (Throw e, w)) by (by rewrite readDb_eq, He).
  destruct r as [|name email phone|id|cid files now|id|id]; simpl in *.
  - unfold get_api_data, or_500, bind. by rewrite Hr.
  - destruct (truthy name) eqn:E; [|done].
    unfold post_api_clients, or_500. rewrite E. simpl. unfold bind.
    by rewrite Hr.
  - unfold delete_api_clients, or_500, bind. by rewrite Hr.
  - destruct (truthy (field cid)) eqn:Hc; [|tauto].
    destruct files as [[|f fs]|]; simpl in Hn; try tauto.
    unfold post_api_photos, post_api_photos_handler, or_500, bind,
      upload_array.
    rewrite Hc. simpl.
    match goal with |- context [readDb ?w1] =>
      rewrite (readDb_eq w1), (readDb_dbfile w1 w eq_refl), He end.
    done.
  - unfold delete_api_photos, or_500, bind. by rewrite Hr.
  - unfold put_api_photos_favorite, or_500, bind. by rewrite Hr.
Qed.

(** With the store loaded, a request goes through or is refused. *)
Lemma handle_loaded (r : Request) (w : World) (d : Document) :
  holds w d ->
  status (handle r w).1 = success r \/ status (handle r w).1 = refusal r.
Proof.
  intros Hd.
  destruct r as [|name email phone|id|cid files now|id|id]; simpl.
  - left. by rewrite (get_api_data_200 w d Hd).
  - destruct (truthy name) eqn:E.
    + left. by rewrite (post_api_clients_201 w d Hd _ _ _ E).
    + right. by rewrite post_api_clients_400.
  - destruct (findIndex (is_client id) (clients d)) as [i|] eqn:Hi.
    + left.
      by destruct (delete_api_clients_200 w d Hd id i Hi) as (w1 & -> & _).
    + right. by rewrite (delete_api_clients_404 w d Hd id Hi).
  - destruct (truthy (field cid)) eqn:Hc;
      [|right; rewrite post_api_photos_400; auto].
    destruct files as [[|f fs]|];
      try (right; rewrite post_api_photos_400; by auto).
    left. by rewrite (post_api_photos_201 w d Hd cid (f :: fs) now Hc).
  - destruct (findIndex (is_photo id) (photos d)) as [i|] eqn:Hi.
    + left.
      by destruct (delete_api_photos_200 w d Hd id i Hi) as (w1 & -> & _).
    + right. by rewrite (delete_api_photos_404 w d Hd id Hi).
  - destruct (find (is_photo id) (photos d)) as [[i p]|] eqn:Hi.
    + left. by rewrite (put_api_photos_favorite_200 w d Hd id i p Hi).
    + right. by rewrite (put_api_photos_favorite_404 w d Hd id Hi).
Qed.

End Outcome.

(** X3. When [readDb] throws, a request that passes the validation of its
    route is answered 500 with the message of the route and the very
    error that [readDb] has thrown.  An answer of 200 or 201 is only
    given when the store has been loaded and the request was not refused,
    and then it is 201 for the two POST routes and 200 for the others.
    The routes give no other answers than 200, 201, 400, 404 and 500. *)
Theorem handle_outcome (r : Request) (w : World) :
  (forall e, (readDb w).1 = Throw e -> ~ rejected r w ->
             (handle r w).1 =
             mkResponse 500 (JsonError (failure_message r) e)) /\
  (status (handle r w).1 = 200 \/ status (handle r w).1 = 201 ->
   loadable w /\ ~ rejected r w /\ status (handle r w).1 = success r) /\
  (status (handle r w).1 = 200 \/ status (handle r w).1 = 201 \/
   status (handle r w).1 = 400 \/ status (handle r w).1 = 404 \/
   status (handle r w).1 = 500).
Proof.
  split; [intros e He Hn; by apply handle_unloadable|].
  assert (forall d, holds w d ->
            status (handle r w).1 = 200 \/ status (handle r w).1 = 201 \/
            status (handle r w).1 = 400 \/ status (handle r w).1 = 404) as Hl.
  { intros d Hd. destruct (handle_loaded r w d Hd) as [-> | ->];
      destruct r; simpl; auto. }
  split.
  - intros Hs.
    assert (~ rejected r w) as Hn.
    { intros Hr. apply rejected_refused in Hr as [Hr _].
      rewrite Hr in Hs. destruct r; simpl in Hs; lia. }
    destruct ((readDb w).1) as [d|e] eqn:E.
    + split; [by exists d|]. split; [done|].
      by apply (handle_loadable r w d).
    + destruct (handle_500 r w e E) as [H5 _]. lia.
  - destruct ((readDb w).1) as [d|e] eqn:E.
    + destruct (Hl d E) as [H|[H|[H|H]]]; auto.
    + destruct (handle_500 r w e E) as [[H|H] _]; auto.
Qed.

Lemma handle_outcome_witness :
  (handle GetData (mkWorld (Text Garbage) [] [])).1 =
  mkResponse 500 (JsonError "Error reading data" SyntaxError) /\
  loadable gallery /\
  ~ rejected (DeleteClients "2") gallery.
Proof.
  split.
  - apply (handle_outcome GetData (mkWorld (Text Garbage) [] []));
      [reflexivity|intros []].
  - destruct (handle_outcome (DeleteClients "2") gallery) as (_ & H & _).
    destruct H as (Hl & Hn & _); [by left|]. by split.
Defined.

(** ** Whether the store can be loaded *)

Section Loadable.

Lemma handle_keeps_loadable (r : Request) (w : World) :
  loadable w -> loadable (handle r w).2.
Proof.
  intros [d Hd]. destruct (handle_mutation r w) as [E|(d0 & d' & _ & _ & E)].
  - exists d. unfold holds in *. by rewrite (readDb_dbfile _ w E).
  - exists d'. unfold holds. by rewrite (readDb_json _ d' E).
Qed.

Lemma handle_keeps_unloadable (r : Request) (w : World) (e : error) :
  (readDb w).1 = Throw e ->
  (readDb (handle r w).2).1 = Throw e /\
  dbfile (handle r w).2 = dbfile w /\
  (status (handle r w).1 = 400 \/ status (handle r w).1 = 500).
Proof.
  intros He. destruct (handle_500 r w e He) as [Hs E].
  split; [by rewrite (readDb_dbfile _ w E)|]. done.
Qed.

End Loadable.

(** X4. No sequence of requests changes whether the store can be loaded.
    A store that loads keeps loading: the routes only ever write whole
    documents.  A store that does not load, because [db.json] cannot be
    read or does not parse, is never repaired nor overwritten: the file
    stays as it is, [readDb] keeps throwing the same error, and every
    request is answered 400 or 500. *)
Theorem serve_keeps_loadability (rs : list Request) (w : World) :
  (loadable w -> loadable (serve rs w).2) /\
  (forall e, (readDb w).1 = Throw e ->
             (readDb (serve rs w).2).1 = Throw e /\
             dbfile (serve rs w).2 = dbfile w /\
             Forall (fun resp => status resp = 400 \/ status resp = 500)
                    (serve rs w).1).
Proof.
  revert w. induction rs as [|r rs IH]; intros w; simpl.
  - split; [done|]. intros e He. by repeat split.
  - pose proof (handle_keeps_loadable r w) as Hl.
    pose proof (handle_keeps_unloadable r w) as Hu.
    destruct (handle r w) as [resp w1]. simpl in *.
    destruct (IH w1) as [IHl IHu].
    destruct (serve rs w1) as [resps w2]. simpl in *.
    split; [auto|]. intros e He.
    destruct (Hu e He) as (He1 & Hf & Hs).
    destruct (IHu e He1) as (He2 & Hf2 & Hall).
    split; [done|]. split; [congruence|]. by constructor.
Qed.

(** ** Creating a client and deleting it again *)

Section CreateDelete.

(** [Math.max] depends on the elements only. *)
Lemma Math_max_unique (xs : list Z) (m : Z) :
  In m xs -> (forall x, In x xs -> x <= m) -> Math_max xs = m.
Proof.
  intros Hm Hle.
  assert (xs <> []) as Hne by (by destruct xs).
  pose proof (Hle _ (Math_max_elem xs Hne)).
  pose proof (Math_max_bound xs m Hm). lia.
Qed.

Lemma Math_max_same (xs ys : list Z) :
  xs <> [] -> (forall x, In x xs <-> In x ys) -> Math_max ys = Math_max xs.
Proof.
  intros Hne H. apply Math_max_unique.
  - by apply H, Math_max_elem.
  - intros x Hx. by apply Math_max_bound, H.
Qed.

(** The next id is a double. *)
Lemma newId_double (d : Document) : to_double (newId d) = Num (newId d).
Proof.
  unfold newId. destruct (0 <? length (clients d))%nat; [|done].
  apply to_double_js_add.
Qed.

Variables (w : World) (d : Document) (name email phone : value).
Hypothesis Hd : holds w d.
Hypothesis Hname : truthy name = true.

(** The delete that follows the creation finds a client with the new id:
    the new client, or one before it that has the same id. *)
Local Lemma created_found :
  exists i c',
    findIndex (is_client (decimal (newId d)))
              (clients d ++ [Client.mk (newId d) name email phone]) =
    Some i /\
    (clients d ++ [Client.mk (newId d) name email phone]) !! i = Some c' /\
    Client.id c' = newId d.
Proof.
  set (c := Client.mk (newId d) name email phone).
  pose proof (parseInt_double _ (newId_double d)) as Hp.
  destruct (findIndex (is_client (decimal (newId d))) (clients d ++ [c]))
    as [i|] eqn:E.
  - pose proof E as E'.
    apply findIndex_Some in E' as (l1 & c' & l2 & E1 & <- & Hc' & _).
    exists (length l1), c'. split; [done|].
    rewrite E1, list_lookup_middle by done. split; [done|].
    apply is_client_true in Hc'. rewrite Hp in Hc'. by injection Hc'.
  - apply findIndex_None in E. rewrite Forall_forall in E.
    assert (is_client (decimal (newId d)) c = false) as Hc.
    { apply E, elem_of_app. right. by left. }
    assert (is_client (decimal (newId d)) c = true) as Hc'
      by (by apply is_client_true).
    congruence.
Qed.

(** The world after the client has been created, and the document
    stored once it has been deleted again, when the ids present are in
    the range where doubles count without a gap. *)
Local Lemma created_then_deleted :
  (forall c, c ∈ clients d -> - 2 ^ 53 <= Client.id c < 2 ^ 53) ->
  exists w2,
    delete_api_clients (decimal (newId d))
                       (post_api_clients name email phone w).2 =
    (mkResponse 200 (JsonMessage "Client and associated photos deleted"),
     w2) /\
    dbfile w2 =
    Text (Json (mkDocument
                  (clients d)
                  (filter (fun p => Photo.clientId p <> VNum (newId d))
                          (photos d)))).
Proof.
  intros Hb.
  destruct (newId_within d (2 ^ 53 - 1)) as [Habove _];
    [by vm_compute|intros c Hc; apply Hb in Hc; lia|].
  pose proof (parseInt_double _ (newId_double d)) as Hp.
  rewrite (post_api_clients_201 w d Hd name email phone Hname). simpl.
  set (c := Client.mk (newId d) name email phone).
  set (d1 := mkDocument (clients d ++ [c]) (photos d)).
  set (w1 := mkWorld (Text (Json d1)) (uploads w) (console w)).
  assert (Hd1 : holds w1 d1) by (unfold holds; by rewrite (readDb_json w1 d1)).
  assert (Hi : findIndex (is_client (decimal (newId d))) (clients d1) =
               Some (length (clients d))).
  { apply findIndex_Some. exists (clients d), c, []. repeat split.
    - by apply is_client_true.
    - apply Forall_forall. intros c' Hc'.
      destruct (is_client (decimal (newId d)) c') eqn:E; [|done].
      apply is_client_true in E. rewrite Hp in E.
      injection E as E. apply Habove in Hc'. lia. }
  destruct (delete_api_clients_200 w1 d1 Hd1 _ _ Hi) as (w2 & Hr & Hw).
  exists w2. split; [done|]. rewrite Hw. simpl.
  rewrite Hp, filter_other_clients, delete_middle.
  by rewrite app_nil_r.
Qed.

(** Whatever the ids present, the delete succeeds, and the next id of the
    document it stores is the id that was given to the client. *)
Local Lemma created_deleted_newId :
  exists w2 d2,
    delete_api_clients (decimal (newId d))
                       (post_api_clients name email phone w).2 =
    (mkResponse 200 (JsonMessage "Client and associated photos deleted"),
     w2) /\
    holds w2 d2 /\
    newId d2 = newId d.
Proof.
  destruct created_found as (i & c' & Hi & Hl & Hc').
  rewrite (post_api_clients_201 w d Hd name email phone Hname). simpl.
  set (c := Client.mk (newId d) name email phone) in *.
  set (d1 := mkDocument (clients d ++ [c]) (photos d)).
  set (w1 := mkWorld (Text (Json d1)) (uploads w) (console w)).
  assert (Hd1 : holds w1 d1) by (unfold holds; by rewrite (readDb_json w1 d1)).
  destruct (delete_api_clients_200 w1 d1 Hd1 _ i Hi) as (w2 & Hr & Hw).
  eexists w2, _. split; [done|].
  split; [unfold holds; by rewrite (readDb_json w2 _ Hw)|].
  cbn [d1 clients photos].
  destruct (decide (i = length (clients d))) as [->|Hne].
  { replace (clients d ++ [c]) with (clients d ++ c :: []) by done.
    by rewrite delete_middle, app_nil_r. }
  assert (i < length (clients d))%nat as Hlt.
  { apply lookup_lt_Some in Hl. rewrite length_app in Hl. simpl in Hl. lia. }
  rewrite lookup_app_l in Hl by done.
  apply list_elem_of_split_length in Hl as (l1 & l2 & E & Hlen).
  subst i. unfold newId. cbn [clients]. rewrite E.
  replace ((l1 ++ c' :: l2) ++ [c]) with (l1 ++ c' :: (l2 ++ [c]))
    by (by rewrite <- app_assoc).
  rewrite delete_middle.
  rewrite (proj2 (length_pos_nonempty (l1 ++ l2 ++ [c])))
    by (by destruct l1, l2).
  rewrite (proj2 (length_pos_nonempty (l1 ++ c' :: l2)))
    by (by destruct l1).
  f_equal. apply Math_max_same; [by destruct l1|].
  intros x. rewrite !in_map_iff. split.
  - intros (y & <- & Hy). apply in_app_iff in Hy as [Hy|[<-|Hy]].
    + exists y. split; [done|]. apply in_app_iff. by left.
    + exists c. split; [by rewrite Hc'|].
      apply in_app_iff. right. apply in_app_iff. right. by left.
    + exists y. split; [done|].
      apply in_app_iff. right. apply in_app_iff. by left.
  - intros (y & <- & Hy). apply in_app_iff in Hy as [Hy|Hy].
    + exists y. split; [done|]. apply in_app_iff. by left.
    + apply in_app_iff in Hy as [Hy|[<-|[]]].
      * exists y. split; [done|]. apply in_app_iff. right. by right.
      * exists c'. split; [by rewrite Hc'|]. apply in_app_iff. right. by left.
Qed.

End CreateDelete.

Lemma filter_all {A} (P : A -> Prop) `{forall x, Decision (P x)}
    (l : list A) :
  (forall x, x ∈ l -> P x) -> filter P l = l.
Proof.
  induction l as [|x l IH]; intros Hl; [done|].
  rewrite filter_cons, decide_True by (apply Hl; left).
  f_equal. apply IH. intros y Hy. apply Hl. by right.
Qed.

(** X5. Let the ids of the clients lie in the range where doubles count
    without a gap, from [- 2 ^ 53] to below [2 ^ 53].  A client that has
    just been created can then be deleted through the decimal numeral of
    the id it was given.  The delete answers 200 and [clients] is back to
    the list before the creation.  [photos] loses the photos that already
    carried the new id as [clientId] (uploads do not check that their
    client exists); when there was none the document is back as it
    was. *)
Theorem create_then_delete_client
    (w : World) (d : Document) (name email phone : value) :
  holds w d ->
  truthy name = true ->
  (forall c, c ∈ clients d -> - 2 ^ 53 <= Client.id c < 2 ^ 53) ->
  exists w2,
    delete_api_clients (decimal (newId d))
                       (post_api_clients name email phone w).2 =
    (mkResponse 200 (JsonMessage "Client and associated photos deleted"),
     w2) /\
    dbfile w2 =
    Text (Json (mkDocument
                  (clients d)
                  (filter (fun p => Photo.clientId p <> VNum (newId d))
                          (photos d)))) /\
    ((forall p, p ∈ photos d -> Photo.clientId p <> VNum (newId d)) ->
     dbfile w2 = Text (Json d)).
Proof.
  intros Hd Hn Hb.
  destruct (created_then_deleted w d name email phone Hd Hn Hb)
    as (w2 & Hr & Hw).
  exists w2. split; [done|]. split; [done|]. intros Hp.
  rewrite Hw, (filter_all _ _ Hp). by destruct d.
Qed.

Lemma create_then_delete_client_witness :
  exists w2,
    delete_api_clients "3"
      (post_api_clients (VStr "Carol") VNull VNull gallery).2 =
    (mkResponse 200 (JsonMessage "Client and associated photos deleted"),
     w2) /\
    dbfile w2 = Text (Json gallery_db).
Proof.
  destruct (create_then_delete_client gallery gallery_db (VStr "Carol")
              VNull VNull eq_refl eq_refl) as (w2 & Hr & _ & Hw).
  - intros c Hc.
    repeat (apply elem_of_cons in Hc as [->|Hc]; [by vm_compute|]).
    by apply elem_of_nil in Hc.
  - exists w2. split; [exact Hr|]. apply Hw.
    intros p Hp. vm_compute in Hp.
    repeat (apply elem_of_cons in Hp as [->|Hp]; [discriminate|]).
    by apply elem_of_nil in Hp.
Defined.

(** X6. Ids are given again.  Create a client, delete it, create another:
    the second client gets the id the first one had, since the next id is
    computed from the ids present and not kept anywhere. *)
Theorem client_id_is_reused
    (w : World) (d : Document) (name email phone name' email' phone' : value) :
  holds w d ->
  truthy name = true ->
  truthy name' = true ->
  (serve [PostClients name email phone;
          DeleteClients (decimal (newId d));
          PostClients name' email' phone'] w).1 =
  [mkResponse 201 (JsonClient (Client.mk (newId d) name email phone));
   mkResponse 200 (JsonMessage "Client and associated photos deleted");
   mkResponse 201 (JsonClient (Client.mk (newId d) name' email' phone'))].
Proof.
  intros Hd Hn Hn'. simpl.
  destruct (created_deleted_newId w d name email phone Hd Hn)
    as (w2 & d2 & Hr & Hd2 & Hid).
  rewrite (post_api_clients_201 w d Hd name email phone Hn) in *.
  simpl in Hr. rewrite Hr.
  rewrite (post_api_clients_201 w2 d2 Hd2 name' email' phone' Hn').
  simpl. by rewrite Hid.
Qed.

Lemma client_id_is_reused_witness :
  (serve [PostClients (VStr "Carol") VNull VNull;
          DeleteClients "3";
          PostClients (VStr "Dave") VNull VNull] gallery).1 =
  [mkResponse 201 (JsonClient (Client.mk 3 (VStr "Carol") VNull VNull));
   mkResponse 200 (JsonMessage "Client and associated photos deleted");
   mkResponse 201 (JsonClient (Client.mk 3 (VStr "Dave") VNull VNull))].
Proof.
  exact (client_id_is_reused gallery gallery_db (VStr "Carol") VNull VNull
           (VStr "Dave") VNull VNull eq_refl eq_refl eq_refl).
Defined.

(** ** Toggling a flag that is not a boolean *)

Section Coerce.

Lemma flip_flip_as_boolean (p : Photo.t) :
  flip_favorite (flip_favorite p) = as_boolean p.
Proof.
  unfold flip_favorite, as_boolean, js_not. simpl.
  by rewrite negb_involutive.
Qed.

Lemma as_boolean_fixed (p : Photo.t) :
  as_boolean p = p <-> exists b, Photo.favorite p = VBool b.
Proof.
  destruct p as [i c n u s t f]. unfold as_boolean. simpl. split.
  - intros [= E]. eauto.
  - intros [b ->]. done.
Qed.

Lemma flip_as_boolean (p : Photo.t) :
  flip_favorite (as_boolean p) = flip_favorite p.
Proof. done. Qed.

Lemma find_distinct (d : Document) (id : string) (i : nat) (P : Photo.t) :
  NoDup (map Photo.id (photos d)) ->
  photos d !! i = Some P ->
  parseInt id = Num (Photo.id P) ->
  find (is_photo id) (photos d) = Some (i, P).
Proof.
  intros Hnd Hi Hid.
  destruct (find_photo d id i P Hi Hid) as (j & Q & Hf & _ & _ & _ & Hu).
  by destruct (Hu Hnd) as [-> ->].
Qed.

Lemma insert_same {A} (l : list A) (i : nat) (x y : A) :
  l !! i = Some x -> <[i := y]> l = l -> y = x.
Proof.
  intros Hi E. apply lookup_lt_Some in Hi as Hlt.
  pose proof (list_lookup_insert_eq l i y Hlt) as H.
  rewrite E, Hi in H. congruence.
Qed.

End Coerce.

(** X7. The toggle does not ask for a boolean.  In a document with
    pairwise distinct photo ids, whatever the [favorite] of the photo [P]
    is (a boolean, nothing at all, a number, a text), one toggle stores the
    negation of its truth value, and two toggles store that truth value
    itself: the rest of the document is as it was, and the whole document
    is as it was exactly when [favorite] was a boolean to begin with.  A
    third toggle answers what the first one did. *)
Theorem put_api_photos_favorite_coerces
    (w : World) (d : Document) (id : string) (i : nat) (P : Photo.t) :
  holds w d ->
  NoDup (map Photo.id (photos d)) ->
  photos d !! i = Some P ->
  parseInt id = Num (Photo.id P) ->
  let w1 := (put_api_photos_favorite id w).2 in
  let w2 := (put_api_photos_favorite id w1).2 in
  (put_api_photos_favorite id w).1 =
  mkResponse 200 (JsonPhoto (flip_favorite P)) /\
  Photo.favorite (flip_favorite P) =
  VBool (negb (truthy (Photo.favorite P))) /\
  w2 = mkWorld
         (Text (Json (mkDocument (clients d)
                                 (<[i := as_boolean P]> (photos d)))))
         (uploads w) (console w) /\
  (dbfile w2 = Text (Json d) <-> exists b, Photo.favorite P = VBool b) /\
  (put_api_photos_favorite id w2).1 = (put_api_photos_favorite id w).1.
Proof.
  intros Hd Hnd Hi Hid.
  pose proof (find_distinct d id i P Hnd Hi Hid) as Hf.
  pose proof (put_api_photos_favorite_200 w d Hd id i P Hf) as H1.
  set (d1 := mkDocument (clients d) (<[i := flip_favorite P]> (photos d)))
    in H1.
  set (wA := mkWorld (Text (Json d1)) (uploads w) (console w)) in H1.
  assert (Hd1 : holds wA d1)
    by (unfold holds; by rewrite (readDb_json wA d1 eq_refl)).
  pose proof (put_api_photos_favorite_200 wA d1 Hd1 id i (flip_favorite P)
                (find_after_flip id (photos d) i P Hf)) as H2.
  simpl in H2. rewrite list_insert_insert_eq, flip_flip_as_boolean in H2.
  set (d2 := mkDocument (clients d) (<[i := as_boolean P]> (photos d)))
    in H2.
  set (wB := mkWorld (Text (Json d2)) (uploads w) (console w)) in H2.
  assert (Hd2 : holds wB d2)
    by (unfold holds; by rewrite (readDb_json wB d2 eq_refl)).
  assert (Hf2 : find (is_photo id) (photos d2) = Some (i, as_boolean P)).
  { unfold d2. simpl. rewrite <- flip_flip_as_boolean.
    rewrite <- (list_insert_insert_eq (photos d) i
                  (flip_favorite (flip_favorite P)) (flip_favorite P)).
    apply find_after_flip. by apply find_after_flip. }
  pose proof (put_api_photos_favorite_200 wB d2 Hd2 id i _ Hf2) as H3.
  cbv zeta. rewrite H1. cbn [fst snd]. rewrite H2. cbn [fst snd].
  split; [done|]. split; [done|]. split; [done|]. split.
  - simpl. rewrite <- as_boolean_fixed. split.
    + intros [= E]. destruct d as [cs ps]. simpl in *.
      injection E as E. by apply (insert_same ps i P).
    + intros E. unfold d2. rewrite E, list_insert_id by done.
      by destruct d.
  - rewrite H3. simpl. by rewrite flip_as_boolean.
Qed.

Lemma put_api_photos_favorite_coerces_witness :
  let w0 :=
    mkWorld
      (Text (Json (mkDocument
                     []
                     [Photo.mk 7 (VNum 1) "a.jpg" "/uploads/a.jpg" 10 "t"
                               VUndefined])))
      [] [] in
  dbfile (put_api_photos_favorite "7" (put_api_photos_favorite "7" w0).2).2 =
  Text (Json (mkDocument
                []
                [Photo.mk 7 (VNum 1) "a.jpg" "/uploads/a.jpg" 10 "t"
                          (VBool false)])).
Proof.
  intros w0.
  destruct (put_api_photos_favorite_coerces w0
              (mkDocument
                 []
                 [Photo.mk 7 (VNum 1) "a.jpg" "/uploads/a.jpg" 10 "t"
                           VUndefined])
              "7" 0
              (Photo.mk 7 (VNum 1) "a.jpg" "/uploads/a.jpg" 10 "t"
                        VUndefined))
    as (_ & _ & H & _); [reflexivity|compute_done|reflexivity|reflexivity|].
  rewrite H. reflexivity.
Defined.

(** ** What the routes do to the uploads directory and to the log *)

Section Frame.

(** When the store cannot be loaded the world is left as a refusal
    leaves it. *)
Lemma handle_throw_world (r : Request) (w : World) (e : error) :
  (readDb w).1 = Throw e -> (handle r w).2 = refused_world r w.
Proof.
  intros He.
  assert (Hr : readDb w = (Throw e, w)) by (by rewrite readDb_eq, He).
  destruct r as [|name email phone|id|cid files now|id|id]; simpl.
  - unfold get_api_data, or_500, bind. by rewrite Hr.
  - unfold post_api_clients, or_500, bind.
    destruct (truthy name); simpl; [by rewrite Hr|done].
  - unfold delete_api_clients, or_500, bind. by rewrite Hr.
  - unfold post_api_photos, post_api_photos_handler, or_500, bind,
      upload_array.
    simpl. destruct (_ || _); simpl; [done|].
    match goal with |- context [readDb ?w1] =>
      rewrite (readDb_eq w1), (readDb_dbfile w1 w eq_refl), He end.
    done.
  - unfold delete_api_photos, or_500, bind. by rewrite Hr.
  - unfold put_api_photos_favorite, or_500, bind. by rewrite Hr.
Qed.

(** The world after a delete of a photo that is found. *)
Lemma delete_api_photos_world (w : World) (d : Document) (id : string)
    (i : nat) :
  holds w d ->
  findIndex (is_photo id) (photos d) = Some i ->
  exists P log,
    photos d !! i = Some P /\
    delete_api_photos id w =
    (mkResponse 200 (JsonMessage "Photo deleted"),
     mkWorld (Text (Json (mkDocument (clients d) (delete i (photos d)))))
             (without [basename (Photo.url P)] (uploads w))
             (console w ++ log)).
Proof.
  intros Hd Hi. unfold delete_api_photos, or_500, bind.
  rewrite (readDb_eq w), Hd. fold (is_photo id). rewrite Hi.
  apply findIndex_Some in Hi as (l1 & P & l2 & E & <- & _).
  rewrite E, list_lookup_middle by done. rewrite unlink_photo_eq. simpl.
  exists P. destruct (has_file _ _).
  - exists []. by rewrite app_nil_r.
  - by eexists.
Qed.

End Frame.

(** X8. Which routes touch the uploads directory and the log, whatever
    they answer.  Listing, creating a client and toggling a favorite touch
    neither.  An upload adds the files of the request to the directory and
    never takes them out again, not even when it is refused or fails, and
    logs nothing.  The two delete routes only ever take files out of the
    directory and only ever add lines at the end of the log. *)
Theorem handle_files_and_log (r : Request) (w : World) :
  match r with
  | PostPhotos _ files _ =>
      uploads (handle r w).2 =
      uploads w ++ map filename (default [] files) /\
      console (handle r w).2 = console w
  | DeleteClients _ | DeletePhotos _ =>
      uploads (handle r w).2 `sublist_of` uploads w /\
      console w `prefix_of` console (handle r w).2
  | _ =>
      uploads (handle r w).2 = uploads w /\
      console (handle r w).2 = console w
  end.
Proof.
  destruct ((readDb w).1) as [d|e] eqn:Hd.
  - change (holds w d) in Hd.
    destruct r as [|name email phone|id|cid files now|id|id]; simpl.
    + by rewrite (get_api_data_200 w d Hd).
    + destruct (truthy name) eqn:Hn.
      * by rewrite (post_api_clients_201 w d Hd _ _ _ Hn).
      * by rewrite post_api_clients_400.
    + destruct (findIndex (is_client id) (clients d)) as [i|] eqn:Hi.
      * destruct (delete_api_clients_world w d id i Hd Hi) as (log & ->).
        simpl. split; [apply without_sublist|by apply prefix_app_r].
      * by rewrite (delete_api_clients_404 w d Hd id Hi).
    + destruct (truthy (field cid)) eqn:Hc;
        [|by rewrite post_api_photos_400 by auto].
      destruct files as [[|f fs]|];
        try by rewrite post_api_photos_400 by auto.
      by rewrite (post_api_photos_201 w d Hd cid (f :: fs) now Hc).
    + destruct (findIndex (is_photo id) (photos d)) as [i|] eqn:Hi.
      * destruct (delete_api_photos_world w d id i Hd Hi)
          as (P & log & _ & ->).
        simpl. split; [apply without_sublist|by apply prefix_app_r].
      * by rewrite (delete_api_photos_404 w d Hd id Hi).
    + destruct (find (is_photo id) (photos d)) as [[i p]|] eqn:Hi.
      * by rewrite (put_api_photos_favorite_200 w d Hd id i p Hi).
      * by rewrite (put_api_photos_favorite_404 w d Hd id Hi).
  - rewrite (handle_throw_world r w e Hd). by destruct r.
Qed.

(** ** Ids in growing order *)

Section Sorted.

Lemma sublist_StronglySorted {A} (R : A -> A -> Prop) (l1 l2 : list A) :
  l1 `sublist_of` l2 -> StronglySorted R l2 -> StronglySorted R l1.
Proof.
  induction 1 as [|x l1 l2 Hs IH|x l1 l2 Hs IH]; intros Hl2; [done|..].
  - apply StronglySorted_cons in Hl2 as [Hx Hl2].
    apply StronglySorted_cons. split; [|auto].
    rewrite Forall_forall in *. intros y Hy. apply Hx.
    by apply (elem_of_sublist l1 l2 y).
  - apply StronglySorted_cons in Hl2 as [_ Hl2]. auto.
Qed.

Lemma StronglySorted_lookup {A} (R : A -> A -> Prop) (l : list A) :
  (forall i j x y, (i < j)%nat -> l !! i = Some x -> l !! j = Some y ->
                   R x y) ->
  StronglySorted R l.
Proof.
  induction l as [|a l IH]; intros H; [constructor|].
  apply StronglySorted_cons. split.
  - apply Forall_forall. intros y [j Hj]%list_elem_of_lookup_1.
    apply (H 0%nat (S j)); [lia|done|done].
  - apply IH. intros i j x y Hij Hi Hj.
    apply (H (S i) (S j)); [lia|done|done].
Qed.

Lemma newPhotos_sorted (m : Z) (cid : option string)
    (fs : list UploadedFile) (now : nat -> string) :
  - 2 ^ 53 <= m -> m + Z.of_nat (length fs) <= 2 ^ 53 ->
  StronglySorted Z.lt (map Photo.id (newPhotos m cid fs now)).
Proof.
  intros Hm Hn. apply StronglySorted_lookup. intros i j x y Hij.
  rewrite !list_lookup_fmap.
  destruct (newPhotos m cid fs now !! i) as [p|] eqn:Hp; [|done].
  destruct (newPhotos m cid fs now !! j) as [q|] eqn:Hq; [|done].
  simpl. intros [= <-] [= <-].
  rewrite (newPhotos_id m cid now fs i p Hm Hn Hp),
    (newPhotos_id m cid now fs j q Hm Hn Hq). lia.
Qed.

(** Each mutation keeps the ids in growing order, as long as the new ids
    are in the range where doubles count without a gap. *)
Lemma mutation_sorted (d d' : Document) (n b : Z) :
  mutation d n d' -> ids_within b d -> b + n <= 2 ^ 53 ->
  sorted_ids d -> sorted_ids d'.
Proof.
  intros Hm (H0 & Hwc & Hwp) Hb [Hc Hp].
  destruct Hm as [name email phone|i k|cid fs now|i|j Q HQ];
    split; simpl; try done.
  - rewrite map_app. apply StronglySorted_app. split; [|split].
    + intros x y Hx [= ->]%list_elem_of_singleton.
      apply list_elem_of_fmap in Hx as (c & -> & Hc').
      destruct (newId_within d b) as [Habove _]; [lia|done|].
      simpl. by apply Habove.
    + done.
    + repeat constructor.
  - apply (sublist_StronglySorted _ _ _ (fmap_sublist _ _ _
             (sublist_delete _ _)) Hc).
  - apply (sublist_StronglySorted _ _ _ (fmap_sublist _ _ _
             (List_filter_sublist _ _)) Hp).
  - pose proof (maxId_within d b H0 Hwp) as Hmax.
    rewrite map_app. apply StronglySorted_app. split; [|split].
    + intros x y Hx Hy.
      apply list_elem_of_fmap in Hx as (p & -> & Hp').
      apply list_elem_of_fmap in Hy as (q & -> & Hq).
      apply list_elem_of_lookup_1 in Hq as [i Hi].
      rewrite (newPhotos_id (maxId d) cid now fs i q) by (done || lia).
      apply maxId_bound in Hp'. lia.
    + done.
    + apply newPhotos_sorted; lia.
  - apply (sublist_StronglySorted _ _ _ (fmap_sublist _ _ _
             (sublist_delete _ _)) Hp).
  - change (StronglySorted Z.lt
              (Photo.id <$> <[j := flip_favorite Q]> (photos d))).
    rewrite list_fmap_insert, list_insert_id; [done|].
    by rewrite list_lookup_fmap, HQ.
Qed.

Lemma handle_sorted (r : Request) (w : World) (b : Z) :
  store_within b w -> b + demand r <= 2 ^ 53 ->
  store_sorted w -> store_sorted (handle r w).2.
Proof.
  intros Hw Hb Hs.
  destruct (handle_mutation r w) as [E|(d & d' & Hd & Hm & E)].
  - intros d Hd. apply Hs. unfold holds in *.
    by rewrite <- (readDb_dbfile _ w E).
  - intros d2 Hd2. unfold holds in Hd2.
    rewrite (readDb_json _ d' E) in Hd2. injection Hd2 as <-.
    apply (mutation_sorted d d' _ b Hm (Hw d Hd) Hb). by apply Hs.
Qed.

Lemma serve_sorted (rs : list Request) :
  forall (w : World) (b : Z),
    store_sorted w -> store_within b w -> b + budget rs <= 2 ^ 53 ->
    store_sorted (serve rs w).2.
Proof.
  induction rs as [|r rs IH]; intros w b Hs Hw Hb; simpl; [done|].
  simpl in Hb. pose proof (budget_nonneg rs) as Hn.
  pose proof (handle_sorted r w b Hw ltac:(lia) Hs) as H1.
  pose proof (handle_within r w b Hw ltac:(lia)) as H2.
  destruct (handle r w) as [resp w1]. simpl in H1, H2.
  specialize (IH w1 (b + demand r) H1 H2 ltac:(lia)).
  by destruct (serve rs w1).
Qed.

Lemma StronglySorted_lt_NoDup (l : list Z) :
  StronglySorted Z.lt l -> NoDup l.
Proof.
  induction 1 as [|x l Hl IH Hx]; constructor; [|done].
  intros Hin. rewrite Forall_forall in Hx. specialize (Hx x Hin). lia.
Qed.

End Sorted.

(** X9. While ids stay in the range where doubles count without a gap,
    the routes keep them in growing order along [clients] and along
    [photos]: new records go to the end with ids above all those present,
    and nothing is ever moved.  Let the ids of the stored document grow
    along both lists and lie between [- 2 ^ 53] and a bound [b]; after any
    sequence of requests that asks for no more than [2 ^ 53 - b] new
    records in all (one per client to create, one per file to upload) they
    still grow, and are therefore distinct.  A store that starts without
    [db.json] is in that order after any sequence of requests that asks
    for at most [2 ^ 53] records, so its listing shows clients and photos
    in the order of their creation. *)
Theorem serve_keeps_ids_sorted (rs : list Request) (w : World) (b : Z) :
  store_sorted w ->
  store_within b w ->
  b + budget rs <= 2 ^ 53 ->
  store_sorted (serve rs w).2 /\
  (forall d, holds (serve rs w).2 d ->
             NoDup (map Client.id (clients d)) /\
             NoDup (map Photo.id (photos d))) /\
  (budget rs <= 2 ^ 53 -> store_sorted (serve rs fresh).2).
Proof.
  intros Hs Hw Hb. pose proof (serve_sorted rs w b Hs Hw Hb) as H.
  split; [done|]. split.
  - intros d Hd. destruct (H d Hd) as [Hc Hp].
    split; by apply StronglySorted_lt_NoDup.
  - intros Hf. apply (serve_sorted rs fresh 0); [| |lia].
    + intros d Hd. injection Hd as <-. split; constructor.
    + intros d Hd. injection Hd as <-. split; [done|].
      split; intros x Hx; by apply elem_of_nil in Hx.
Qed.

Lemma serve_keeps_ids_sorted_witness :
  store_sorted
    (serve [PostPhotos (Some "1") (Some [file1; file2]) noon;
            DeleteClients "2";
            PostClients (VStr "Carol") VNull VNull;
            DeletePhotos "1"] gallery).2.
Proof.
  apply (serve_keeps_ids_sorted _ gallery 3).
  - intros d Hd. injection Hd as <-.
    split; repeat constructor; simpl; lia.
  - intros d Hd. injection Hd as <-. split; [done|].
    split; intros x Hx;
      repeat (apply elem_of_cons in Hx as [->|Hx]; [by vm_compute|]);
      by apply elem_of_nil in Hx.
  - by vm_compute.
Defined.

(** ** Ids in paths *)

Section Lenient.

(** [parseInt] stops at the first character that is no digit. *)
Lemma parse_digits_suffix (radix : Z) (s : string) (c : ascii)
    (rest : string) :
  digit radix c = None ->
  forall acc,
    parse_digits radix (s ++ String c rest)%string acc =
    parse_digits radix s acc.
Proof.
  intros Hc. induction s as [|a s IH]; intros acc; simpl.
  - by rewrite Hc.
  - destruct (digit radix a); [apply IH|done].
Qed.

Lemma strip_prefix_other (c : ascii) (rest : string) :
  c <> "x"%char -> c <> "X"%char ->
  strip_prefix (String "0" (String c rest)) =
  (10, String "0" (String c rest)).
Proof.
  intros Hx HX.
  destruct c as [[] [] [] [] [] [] [] []]; try reflexivity; congruence.
Qed.

Lemma strip_numeral_suffix (d : uint) (c : ascii) (rest : string) :
  d <> Nil -> c <> "x"%char -> c <> "X"%char ->
  let t := (NilEmpty.string_of_uint d ++ String c rest)%string in
  trim_start t = t /\ strip_sign t = (1, t) /\ strip_prefix t = (10, t).
Proof.
  intros Hd Hx HX. destruct d; simpl; try done.
  repeat split. destruct d; simpl; try done.
  by apply strip_prefix_other.
Qed.

Lemma parseInt_uint_suffix (d : uint) (c : ascii) (rest : string) :
  d <> Nil -> digit 10 c = None -> c <> "x"%char -> c <> "X"%char ->
  parseInt (NilEmpty.string_of_uint d ++ String c rest)%string =
  to_double (Z.of_N (Pos.of_uint d)) /\
  parseInt (String "-" (NilEmpty.string_of_uint d ++ String c rest))%string =
  to_double (- Z.of_N (Pos.of_uint d)).
Proof.
  intros Hd Hc Hx HX.
  destruct (strip_numeral_suffix d c rest Hd Hx HX) as (H1 & H2 & H3).
  unfold parseInt. simpl trim_start. rewrite H1. simpl strip_sign.
  rewrite H2, H3, (parse_digits_suffix 10 _ c rest Hc),
    (parse_digits_uint d None); auto.
  split; f_equal; lia.
Qed.

Lemma parseInt_decimal_suffix (z : Z) (c : ascii) (rest : string) :
  digit 10 c = None -> c <> "x"%char -> c <> "X"%char ->
  parseInt (decimal z ++ String c rest)%string = to_double z.
Proof.
  intros Hc Hx HX. destruct z as [|p|p].
  - exact (proj1 (parseInt_uint_suffix (D0 Nil) c rest
                    ltac:(done) Hc Hx HX)).
  - transitivity (to_double (Z.of_N (Pos.of_uint (Pos.to_uint p)))).
    + exact (proj1 (parseInt_uint_suffix _ c rest
                      (Unsigned.to_uint_nonnil p) Hc Hx HX)).
    + by rewrite Unsigned.of_to.
  - transitivity (to_double (- Z.of_N (Pos.of_uint (Pos.to_uint p)))).
    + exact (proj2 (parseInt_uint_suffix _ c rest
                      (Unsigned.to_uint_nonnil p) Hc Hx HX)).
    + by rewrite Unsigned.of_to.
Qed.

(** The three routes that take an id use nothing of it but what
    [parseInt] reads. *)
Lemma routes_by_parseInt (id id' : string) (w : World) :
  parseInt id = parseInt id' ->
  delete_api_clients id w = delete_api_clients id' w /\
  delete_api_photos id w = delete_api_photos id' w /\
  put_api_photos_favorite id w = put_api_photos_favorite id' w.
Proof.
  intros E. unfold delete_api_clients, delete_api_photos,
    put_api_photos_favorite. by rewrite E.
Qed.

End Lenient.

(** X10. The id of a path is read with [parseInt] and not checked any
    further, so whatever follows the number is ignored: a path made of the
    decimal numeral of [z] and then any text that starts with a character
    other than a digit, [x] or [X] is read as the numeral alone is (as
    [z] itself up to [2 ^ 53] in magnitude), and is handled by the two
    delete routes and by the toggle exactly as the numeral alone is. *)
Theorem path_id_suffix_ignored
    (z : Z) (c : ascii) (rest : string) (w : World) :
  digit 10 c = None ->
  c <> "x"%char ->
  c <> "X"%char ->
  let id := (decimal z ++ String c rest)%string in
  parseInt id = parseInt (decimal z) /\
  (Z.abs z <= 2 ^ 53 -> parseInt id = Num z) /\
  delete_api_clients id w = delete_api_clients (decimal z) w /\
  delete_api_photos id w = delete_api_photos (decimal z) w /\
  put_api_photos_favorite id w = put_api_photos_favorite (decimal z) w.
Proof.
  intros Hc Hx HX id.
  pose proof (parseInt_decimal_suffix z c rest Hc Hx HX) as H.
  assert (parseInt id = parseInt (decimal z)) as E
    by (by rewrite parseInt_to_double).
  split; [done|]. split; [|by apply routes_by_parseInt].
  intros Hz. unfold id. rewrite H. by apply to_double_small.
Qed.

Lemma path_id_suffix_ignored_witness :
  delete_api_clients "1abc" gallery = delete_api_clients "1" gallery /\
  put_api_photos_favorite "2.5" gallery = put_api_photos_favorite "2" gallery.
Proof.
  split.
  - apply (path_id_suffix_ignored 1 "a" "bc" gallery); done.
  - apply (path_id_suffix_ignored 2 "." "5" gallery); done.
Defined.

(** ** File names, urls and the file that is removed *)

Section Paths.

Lemma elem_of_rev {A} (l : list A) (x : A) : x ∈ rev l <-> x ∈ l.
Proof. rewrite !list_elem_of_In. symmetry. apply in_rev. Qed.

Lemma list_ascii_app (a b : string) :
  list_ascii_of_string (a ++ b)%string =
  list_ascii_of_string a ++ list_ascii_of_string b.
Proof. induction a as [|c a IH]; simpl; [done|]. by f_equal. Qed.

Lemma slash_free_app (a b : string) :
  slash_free (a ++ b)%string <-> slash_free a /\ slash_free b.
Proof.
  unfold slash_free. rewrite list_ascii_app, elem_of_app. tauto.
Qed.

Lemma until_slash_free (cs : list ascii) : slash ∉ until_slash cs.
Proof.
  induction cs as [|c cs IH]; simpl; [apply not_elem_of_nil|].
  destruct (Ascii.eqb c slash) eqn:E; [apply not_elem_of_nil|].
  apply Ascii.eqb_neq in E. apply not_elem_of_cons. split; [congruence|done].
Qed.

Lemma until_slash_app (l r : list ascii) :
  slash ∉ l -> until_slash (l ++ slash :: r) = l.
Proof.
  induction l as [|c l IH]; simpl; intros H.
  - reflexivity.
  - apply not_elem_of_cons in H as [Hc Hl].
    rewrite (proj2 (Ascii.eqb_neq c slash)) by congruence.
    f_equal. auto.
Qed.

Lemma drop_slashes_keep (l r : list ascii) :
  l <> [] -> slash ∉ l -> drop_slashes (l ++ r) = l ++ r.
Proof.
  destruct l as [|c l]; [done|]. intros _ H. simpl.
  apply not_elem_of_cons in H as [Hc _].
  by rewrite (proj2 (Ascii.eqb_neq c slash)) by congruence.
Qed.

Lemma until_dot_sub (cs : list ascii) (x : ascii) :
  x ∈ until_dot cs -> x ∈ cs.
Proof.
  induction cs as [|c cs IH]; simpl; [done|].
  destruct (Ascii.eqb c dot); [by intros ?%elem_of_nil|].
  intros [->|H]%elem_of_cons; [left|right; auto].
Qed.

(** The last component of any path has no slash in it. *)
Lemma basename_slash_free (p : string) : slash_free (basename p).
Proof.
  unfold slash_free, basename.
  rewrite list_ascii_of_string_of_list_ascii, elem_of_rev.
  apply until_slash_free.
Qed.

(** The url the upload builds leads back to the file name. *)
Lemma basename_uploads (f : string) :
  f <> "" -> slash_free f -> basename ("/uploads/" ++ f)%string = f.
Proof.
  intros Hf Hs. unfold basename. rewrite list_ascii_app, rev_app_distr.
  assert (Hne : rev (list_ascii_of_string f) <> []).
  { destruct f as [|c f]; [done|]. simpl. by destruct (rev _). }
  assert (Hfree : slash ∉ rev (list_ascii_of_string f))
    by (by rewrite elem_of_rev).
  rewrite drop_slashes_keep by done.
  change (rev (list_ascii_of_string "/uploads/"))
    with (slash :: rev (list_ascii_of_string "/uploads")).
  rewrite until_slash_app by done.
  by rewrite rev_involutive, string_of_list_ascii_of_string.
Qed.

Lemma decimal_slash_free (z : Z) : slash_free (decimal z).
Proof.
  assert (H : forall d, slash ∉ list_ascii_of_string
                                  (NilEmpty.string_of_uint d)).
  { induction d; simpl; [apply not_elem_of_nil|..];
      (apply not_elem_of_cons; split; [done|done]). }
  unfold slash_free, decimal. destruct (Z.to_int z); simpl; [apply H|].
  apply not_elem_of_cons. split; [done|apply H].
Qed.

Lemma extname_slash_free (p : string) : slash_free (extname p).
Proof.
  unfold slash_free, extname.
  set (component := until_slash _).
  assert (Hc : slash ∉ component) by apply until_slash_free.
  assert (He : slash ∉ dot :: rev (until_dot component)).
  { apply not_elem_of_cons. split; [done|].
    rewrite elem_of_rev. intros H. by apply until_dot_sub in H. }
  destruct (after_dot component) as [[|c before]|];
    try apply not_elem_of_nil.
  destruct before, (until_dot component) eqn:E;
    try (destruct (Ascii.eqb c dot));
    rewrite ?list_ascii_of_string_of_list_ascii; simpl;
    try apply not_elem_of_nil; done.
Qed.

End Paths.

(** X11. The name the disk storage gives an uploaded file is safe to put
    in a url and to find again: whatever the clock, the random number and
    the original name of the file (slashes, dots and all), as long as the
    field name has no slash, the generated name is not empty and has no
    slash, and so it is the last component of the url [/uploads/<name>]
    that the upload stores, which is the name the delete routes hand to
    [unlink]. *)
Theorem storage_filename_round_trip
    (fieldname : string) (now random : Z) (originalname : string) :
  slash_free fieldname ->
  let f := storage_filename fieldname now random originalname in
  f <> "" /\
  slash_free f /\
  basename ("/uploads/" ++ f)%string = f.
Proof.
  intros Hf f.
  assert (Hne : f <> "").
  { unfold f, storage_filename. intros E.
    apply (f_equal list_ascii_of_string) in E.
    rewrite !list_ascii_app in E. simpl in E.
    by destruct (list_ascii_of_string fieldname). }
  assert (Hs : slash_free f).
  { unfold f, storage_filename. rewrite !slash_free_app.
    repeat split; try done; try apply decimal_slash_free.
    - unfold slash_free. simpl. apply not_elem_of_cons.
      split; [done|apply not_elem_of_nil].
    - unfold slash_free. simpl. apply not_elem_of_cons.
      split; [done|apply not_elem_of_nil].
    - apply extname_slash_free. }
  split; [done|]. split; [done|]. by apply basename_uploads.
Qed.

Lemma storage_filename_round_trip_witness :
  basename
    ("/uploads/" ++
     storage_filename "photos" 1700000000000 123456789 "../a/b.tar.gz")%string =
  "photos-1700000000000-123456789.gz".
Proof.
  destruct (storage_filename_round_trip "photos" 1700000000000 123456789
              "../a/b.tar.gz") as (_ & _ & H).
  - unfold slash_free. vm_compute. intros H.
    repeat (apply elem_of_cons in H as [H|H]; [discriminate|]).
    by apply elem_of_nil in H.
  - rewrite H. reflexivity.
Defined.

(** X12. Whatever the url of a photo says, the name handed to [unlink]
    is its last component and has no slash in it, so a delete reaches no
    file in a directory below the uploads directory and none through a
    longer path. *)
Theorem unlink_name_has_no_slash (p : Photo.t) (w : World) :
  slash_free (basename (Photo.url p)) /\
  uploads (unlink_photo p w).2 =
  without [basename (Photo.url p)] (uploads w) /\
  dbfile (unlink_photo p w).2 = dbfile w.
Proof.
  split; [apply basename_slash_free|]. by rewrite unlink_photo_eq.
Qed.

(** ** Uploading photos and deleting them again *)

Section UploadDelete.

(** One file of the directory taken out again. *)
Lemma without_added (f : string) (dir : list string) :
  f ∉ dir -> without [f] (dir ++ [f]) = dir.
Proof.
  intros Hf. unfold without. rewrite List.filter_app. simpl.
  rewrite String.eqb_refl. simpl. rewrite app_nil_r.
  induction dir as [|g dir IH]; simpl; [done|].
  apply not_elem_of_cons in Hf as [Hg Hf].
  rewrite (proj2 (String.eqb_neq g f)) by congruence. simpl.
  f_equal. auto.
Qed.

(** The photo made for the [k]-th file of an upload, while the ids of the
    batch are in the range where doubles count without a gap. *)
Lemma newPhotos_at (m : Z) (cid : option string)
    (fs : list UploadedFile) (now : nat -> string) (k : nat)
    (file : UploadedFile) :
  - 2 ^ 53 <= m -> m + Z.of_nat (length fs) <= 2 ^ 53 ->
  fs !! k = Some file ->
  newPhotos m cid fs now !! k =
  Some (Photo.mk (m + Z.of_nat k + 1)
          (JSON_number (parseInt (ToString cid)))
          (originalname file) ("/uploads/" ++ filename file)
          (file_size file) (now k) (VBool false)).
Proof.
  intros Hlo Hhi Hk. rewrite newPhotos_lookup, Hk. simpl.
  rewrite (upload_id_exact m k (length fs)); [done|done| |done].
  by apply lookup_lt_Some in Hk.
Qed.

(** Among the photos of an upload, the one made for the [k]-th file is
    the first, and the only one, to carry its id. *)
Lemma findIndex_uploaded (d : Document) (cid : option string)
    (fs : list UploadedFile) (now : nat -> string) (k : nat)
    (file : UploadedFile) :
  - 2 ^ 53 <= maxId d -> maxId d + Z.of_nat (length fs) <= 2 ^ 53 ->
  fs !! k = Some file ->
  findIndex (is_photo (decimal (maxId d + Z.of_nat k + 1)))
            (photos d ++ newPhotos (maxId d) cid fs now) =
  Some (length (photos d) + k)%nat.
Proof.
  intros Hlo Hhi Hk.
  set (news := newPhotos (maxId d) cid fs now).
  pose proof (newPhotos_at (maxId d) cid fs now k file Hlo Hhi Hk) as Hn.
  fold news in Hn.
  assert (parseInt (decimal (maxId d + Z.of_nat k + 1)) =
          Num (maxId d + Z.of_nat k + 1)) as Hp.
  { apply parseInt_decimal. apply lookup_lt_Some in Hk. lia. }
  apply findIndex_Some.
  eexists (photos d ++ take k news), _, (drop (S k) news).
  split; [by rewrite <- app_assoc, (take_drop_middle _ _ _ Hn)|].
  split.
  { rewrite length_app, length_take. apply lookup_lt_Some in Hn. lia. }
  split; [by apply is_photo_true|].
  apply Forall_forall. intros p Hp'.
  destruct (is_photo _ p) eqn:E; [|done].
  apply is_photo_true in E. rewrite Hp in E.
  injection E as E. apply elem_of_app in Hp' as [Hp'|Hp'].
  - apply maxId_bound in Hp'. lia.
  - apply list_elem_of_lookup_1 in Hp' as [j Hj].
    apply lookup_take_Some in Hj as [Hj Hlt].
    rewrite (newPhotos_id (maxId d) cid now fs j p Hlo Hhi Hj) in E. lia.
Qed.

Lemma delete_uploaded {A} (l news : list A) (k : nat) (x : A) :
  news !! k = Some x ->
  delete (length l + k)%nat (l ++ news) = l ++ delete k news.
Proof.
  intros Hk. rewrite <- (take_drop_middle _ _ _ Hk) at 1.
  rewrite app_assoc.
  replace (length l + k)%nat with (length (l ++ take k news)).
  - rewrite delete_middle, <- app_assoc. f_equal.
    by rewrite delete_take_drop.
  - rewrite length_app, length_take. apply lookup_lt_Some in Hk. lia.
Qed.

End UploadDelete.

(** X13. A photo that has just been uploaded can be deleted through the
    decimal numeral of its id, and the delete finds the file that was
    stored for it, while the ids of the batch are in the range where
    doubles count without a gap: the largest photo id present (0 without
    photos) is at least [- 2 ^ 53], and with the number of files added at
    most [2 ^ 53].  After an upload of the files [fs], the [k]-th with a
    non-empty name without slash as the disk storage gives them, deleting
    the photo made for the [k]-th file answers 200, takes exactly that
    photo out of the document and exactly its file out of the uploads
    directory, and logs nothing.  With a single file whose name was not in
    the directory before, document, directory and log are back as they
    were before the upload. *)
Theorem upload_then_delete_photo
    (w : World) (d : Document) (s : string) (fs : list UploadedFile)
    (now : nat -> string) (k : nat) (file : UploadedFile) :
  holds w d ->
  - 2 ^ 53 <= maxId d ->
  maxId d + Z.of_nat (length fs) <= 2 ^ 53 ->
  s <> "" ->
  fs !! k = Some file ->
  filename file <> "" ->
  slash_free (filename file) ->
  let news := newPhotos (maxId d) (Some s) fs now in
  let w2 :=
    mkWorld (Text (Json (mkDocument (clients d)
                                    (photos d ++ delete k news))))
            (without [filename file] (uploads w ++ map filename fs))
            (console w) in
  delete_api_photos (decimal (maxId d + Z.of_nat k + 1))
                    (post_api_photos (Some s) (Some fs) now w).2 =
  (mkResponse 200 (JsonMessage "Photo deleted"), w2) /\
  length (delete k news) = pred (length fs) /\
  (fs = [file] -> filename file ∉ uploads w ->
   w2 = mkWorld (Text (Json d)) (uploads w) (console w)).
Proof.
  intros Hd Hlo Hhi Hs Hk Hne Hfree news w2.
  assert (Hfs : fs <> []) by (intros ->; done).
  assert (Hc : truthy (field (Some s)) = true) by (simpl; by destruct s).
  rewrite (post_api_photos_201 w d Hd (Some s) fs now Hc Hfs). simpl.
  fold news.
  set (d1 := mkDocument (clients d) (photos d ++ news)).
  set (w1 := mkWorld (Text (Json d1)) _ _).
  assert (Hd1 : holds w1 d1) by (unfold holds; by rewrite (readDb_json w1 d1)).
  pose proof (findIndex_uploaded d (Some s) fs now k file Hlo Hhi Hk) as Hi.
  fold news in Hi.
  pose proof (newPhotos_at (maxId d) (Some s) fs now k file Hlo Hhi Hk)
    as Hn.
  fold news in Hn. simpl ToString in Hn.
  split; [|split].
  - unfold delete_api_photos, or_500, bind.
    rewrite (readDb_eq w1), Hd1.
    fold (is_photo (decimal (maxId d + Z.of_nat k + 1))).
    change (photos d1) with (photos d ++ news). rewrite Hi.
    rewrite lookup_app_r by lia.
    replace (length (photos d) + k - length (photos d))%nat with k by lia.
    rewrite Hn, unlink_photo_eq. simpl.
    rewrite (basename_uploads _ Hne Hfree).
    rewrite (proj2 (has_file_elem (filename file)
                      (uploads w ++ map filename fs))).
    + by rewrite (delete_uploaded _ _ _ _ Hn).
    + apply elem_of_app. right. apply list_elem_of_fmap.
      exists file. split; [done|]. by apply list_elem_of_lookup_2 in Hk.
  - rewrite length_delete by (by eexists). unfold news.
    rewrite newPhotos_length. lia.
  - intros -> Hnew. unfold w2. destruct k; [|done].
    simpl. rewrite app_nil_r, (without_added _ _ Hnew). by destruct d.
Qed.

Lemma upload_then_delete_photo_witness :
  delete_api_photos "4"
    (post_api_photos (Some "2") (Some [file1]) noon gallery).2 =
  (mkResponse 200 (JsonMessage "Photo deleted"), gallery).
Proof.
  assert (Hfree : slash_free (filename file1)).
  { unfold slash_free. vm_compute. intros H.
    repeat (apply elem_of_cons in H as [H|H]; [discriminate|]).
    by apply elem_of_nil in H. }
  destruct (upload_then_delete_photo gallery gallery_db "2" [file1] noon 0
              file1 eq_refl ltac:(by vm_compute) ltac:(by vm_compute)
              ltac:(done) eq_refl ltac:(done) Hfree)
    as (H & _ & _).
  change (decimal (maxId gallery_db + Z.of_nat 0 + 1)) with "4" in H.
  rewrite H. reflexivity.
Defined.

(** ** Deleting a client twice *)

(** X14. In a document whose client ids are pairwise distinct, a client
    that has been deleted is gone for good: the same delete asked again
    answers 404 and leaves the world, files and log included, as the first
    delete left it. *)
Theorem delete_api_clients_again
    (w : World) (d : Document) (id : string) (C : Client.t) :
  holds w d ->
  NoDup (map Client.id (clients d)) ->
  C ∈ clients d ->
  parseInt id = Num (Client.id C) ->
  status (delete_api_clients id w).1 = 200 /\
  delete_api_clients id (delete_api_clients id w).2 =
  (mkResponse 404 (JsonMessage "Client not found"),
   (delete_api_clients id w).2).
Proof.
  intros Hd Hnd HC Hid.
  apply list_elem_of_split in HC as (l1 & l2 & E).
  pose proof Hnd as Hnd'. rewrite E in Hnd'.
  destruct (findIndex_client id l1 l2 C Hnd' Hid) as [Hi Hout].
  rewrite <- E in Hi.
  destruct (delete_api_clients_200 w d Hd id _ Hi) as (w1 & -> & Hw).
  simpl. split; [done|].
  rewrite E, delete_middle in Hw.
  apply (delete_api_clients_404 w1 _ ltac:(unfold holds;
           by rewrite (readDb_json w1 _ Hw))).
  apply no_client_iff. simpl. intros c Hc Ec.
  rewrite Hid in Ec. injection Ec as Ec.
  rewrite E, map_app in Hnd. simpl in Hnd.
  apply NoDup_app in Hnd as (_ & Hl1 & Hnd).
  apply NoDup_cons in Hnd as [Hl2 _].
  apply elem_of_app in Hc as [Hc|Hc].
  - apply (Hl1 (Client.id c)); [by apply list_elem_of_fmap_2|].
    rewrite <- Ec. left.
  - apply Hl2. rewrite Ec. by apply list_elem_of_fmap_2.
Qed.

Lemma delete_api_clients_again_witness :
  status (delete_api_clients "2" (delete_api_clients "2" gallery).2).1 = 404.
Proof.
  destruct (delete_api_clients_again gallery gallery_db "2" bob)
    as [_ H]; [reflexivity|compute_done|right; left|reflexivity|].
  by rewrite H.
Defined.

(** ** Photos and the clients they belong to *)

Section Integrity.

Lemma integral_json (w : World) (d : Document) :
  dbfile w = Text (Json d) -> integral d -> store_integral w.
Proof.
  intros E Hi d' Hd'. unfold holds in Hd'.
  rewrite (readDb_json w d E) in Hd'. by injection Hd' as <-.
Qed.

Lemma store_integral_dbfile (w1 w2 : World) :
  dbfile w1 = dbfile w2 -> store_integral w2 -> store_integral w1.
Proof.
  intros E H d Hd. apply H. unfold holds in *.
  by rewrite <- (readDb_dbfile w1 w2 E).
Qed.

End Integrity.

(** X15. Deleting a client takes its photos with it, so it never leaves a
    photo without client behind; creating a client, deleting a photo and
    toggling a favorite cannot either.  If every photo of the stored
    document belongs to one of its clients, the same holds after any
    request, provided that, when the request is an upload, the clientId it
    gives is read as the id of a client of the document.  The upload does
    not check this itself. *)
Theorem handle_keeps_integrity (r : Request) (w : World) :
  store_integral w ->
  names_client r w ->
  store_integral (handle r w).2.
Proof.
  intros Hs Hk. destruct ((readDb w).1) as [d|e] eqn:Hd.
  2:{ apply (store_integral_dbfile _ w); [|done].
      by apply (handle_500 r w e). }
  change (holds w d) in Hd. pose proof (Hs d Hd) as Hi.
  destruct r as [|name email phone|id|cid files now|id|id]; simpl.
  - by rewrite (get_api_data_200 w d Hd).
  - destruct (truthy name) eqn:Hn; [|by rewrite post_api_clients_400].
    rewrite (post_api_clients_201 w d Hd _ _ _ Hn). simpl.
    eapply integral_json; [done|]. intros p Hp. simpl in *.
    destruct (Hi p Hp) as (c & Hc & E). exists c.
    split; [|done]. apply elem_of_app. by left.
  - destruct (findIndex (is_client id) (clients d)) as [i|] eqn:Hf;
      [|by rewrite (delete_api_clients_404 w d Hd id Hf)].
    destruct (delete_api_clients_200 w d Hd id i Hf) as (w1 & -> & Hw).
    simpl. eapply integral_json; [exact Hw|]. intros p Hp. simpl in *.
    apply list_elem_of_In, filter_In in Hp as [Hp Hne].
    apply list_elem_of_In in Hp. destruct (Hi p Hp) as (c & Hc & E).
    exists c. split; [|done].
    apply findIndex_Some in Hf as (l1 & x & l2 & El & <- & Hx & _).
    rewrite El, delete_middle. rewrite El in Hc.
    apply elem_of_app in Hc as [Hc|Hc]; [apply elem_of_app; by left|].
    apply elem_of_cons in Hc as [->|Hc]; [|apply elem_of_app; by right].
    apply is_client_true in Hx. rewrite Hx, E in Hne. simpl in Hne.
    by rewrite Z.eqb_refl in Hne.
  - destruct (truthy (field cid)) eqn:Hc.
    2:{ rewrite post_api_photos_400 by auto.
        by apply (store_integral_dbfile _ w). }
    destruct files as [[|f fs]|];
      try (rewrite post_api_photos_400 by auto;
           by apply (store_integral_dbfile _ w)).
    rewrite (post_api_photos_201 w d Hd cid (f :: fs) now Hc); [|done].
    eapply integral_json; [done|]. intros p Hp. simpl in *.
    apply elem_of_app in Hp as [Hp|Hp]; [by apply Hi|].
    destruct (Hk d Hd) as (c & Hcl & E). exists c. split; [done|].
    apply newPhotos_elem in Hp as (j & file & _ & ->). simpl.
    by rewrite E.
  - destruct (findIndex (is_photo id) (photos d)) as [i|] eqn:Hf;
      [|by rewrite (delete_api_photos_404 w d Hd id Hf)].
    destruct (delete_api_photos_200 w d Hd id i Hf) as (w1 & -> & Hw).
    simpl. eapply integral_json; [exact Hw|]. intros p Hp. simpl in *.
    apply Hi. by apply (elem_of_sublist _ _ _ Hp), sublist_delete.
  - destruct (find (is_photo id) (photos d)) as [[j Q]|] eqn:Hf;
      [|by rewrite (put_api_photos_favorite_404 w d Hd id Hf)].
    rewrite (put_api_photos_favorite_200 w d Hd id j Q Hf).
    eapply integral_json; [done|]. intros p Hp. simpl in *.
    apply find_Some in Hf as (l1 & l2 & El & <- & _).
    rewrite El, insert_middle in Hp. unfold integral in Hi.
    rewrite El in Hi.
    apply elem_of_app in Hp as [Hp|Hp].
    + apply Hi, elem_of_app. by left.
    + apply elem_of_cons in Hp as [->|Hp].
      * apply (Hi Q), elem_of_app. right. left.
      * apply Hi, elem_of_app. right. by right.
Qed.

Lemma handle_keeps_integrity_witness :
  store_integral (handle (DeleteClients "1") gallery).2 /\
  store_integral
    (handle (PostPhotos (Some "2") (Some [file1]) noon) gallery).2.
Proof.
  assert (Hg : store_integral gallery).
  { intros d Hd p Hp. injection Hd as <-. vm_compute in Hp.
    apply elem_of_cons in Hp as [->|Hp]; [exists alice; split; [left|done]|].
    apply elem_of_cons in Hp as [->|Hp];
      [exists bob; split; [right; left|done]|].
    apply elem_of_cons in Hp as [->|Hp]; [exists alice; split; [left|done]|].
    by apply elem_of_nil in Hp. }
  split.
  - by apply (handle_keeps_integrity (DeleteClients "1") gallery).
  - apply (handle_keeps_integrity _ gallery Hg).
    intros d Hd. injection Hd as <-. exists bob. split; [right; left|done].
Defined.
